(** * Next-title prediction: shape arithmetic, image construction,
      padding, match counting, configuration round trip, batching.

    A shallow embedding of the algorithmic parts of
    - [cnn_encoder_model.py] (module [CNN]),
    - [t5.py]                (module [T5]),
    - [sentence_encoders.py] (module [SentEnc]).

    Python integers are [Z]; NumPy arrays and Torch tensors are nested
    lists; dictionaries are [gmap]s; raising an exception is the [Raise]
    branch of [result]. *)

From Stdlib Require Import ZArith QArith Qround Lia.
From stdpp Require Import base numbers option list gmap strings.

Open Scope Z_scope.

(** ** Python exceptions and the error monad *)

Module Py.

Inductive exn : Type :=
| KeyError
| IndexError
| ValueError
| TypeError
| RuntimeError
| ZeroDivisionError.

Inductive result (A : Type) : Type :=
| Ok (a : A)
| Raise (e : exn).

Arguments Ok {A} a.
Arguments Raise {A} e.

Definition bind {A B : Type} (m : result A) (k : A -> result B) : result B :=
  match m with
  | Ok a => k a
  | Raise e => Raise e
  end.

Definition raises {A : Type} (m : result A) : Prop := exists e, m = Raise e.

Definition returns {A : Type} (m : result A) : Prop := exists a, m = Ok a.

#[global] Instance result_bind : MBind result := fun A B k m => bind m k.
#[global] Instance result_ret : MRet result := fun A a => Ok a.

(** [d[key]] on a dictionary. *)
Definition dict_get {V : Type} (d : gmap string V) (key : string) : result V :=
  match d !! key with
  | Some v => Ok v
  | None => Raise KeyError
  end.

(** [len(d)] *)
Definition dict_len {V : Type} (d : gmap string V) : Z := Z.of_nat (size d).

End Py.

Import Py.

(** ** The CNN model: [cnn_encoder_model.py] *)

Module CNN.

(** The dictionary [cnn_encoder_params] with its three lists. *)
Record cnn_encoder_params : Type := {
  input_dims : list Z;
  output_dims : list Z;
  kernel_sizes : list Z
}.

(** [CNNConfig]: the fields the model reads. *)
Record CNNConfig : Type := {
  encoder_params : cnn_encoder_params;
  max_seq_len : Z;
  label2id : gmap string Z
}.

Definition n_labels (config : CNNConfig) : Z := dict_len (label2id config).

(** *** [CNNModel.__init__]: the expected output dimension *)

Definition kernel_size : Z := 2.
Definition dilation : Z := 1.
Definition stride : Z := 2.

(** One [MaxPool2d] step on one spatial dimension, as lines 56 and 57
    write it; [//] is floor division. *)
Definition pooled (x : Z) : Z :=
  ((x - dilation * (kernel_size - 1) - 1) `div` stride) + 1.

(** The body of the [for c_in, c_out in zip(...)] loop on the state
    [(h, w, c)]. *)
Fixpoint stage_loop (stages : list (Z * Z)) (hwc : Z * Z * Z) : Z * Z * Z :=
  match stages with
  | [] => hwc
  | (c_in, c_out) :: rest =>
      let '(h, w, c) := hwc in
      stage_loop rest (pooled h, pooled w, c_out)
  end.

Definition expected_shape (config : CNNConfig) : Z * Z * Z :=
  stage_loop
    (zip (input_dims (encoder_params config)) (output_dims (encoder_params config)))
    (max_seq_len config, n_labels config, 1).

Definition compute_output_dim (config : CNNConfig) : Z :=
  let '(h, w, c) := expected_shape config in h * w * c.

(** The specification's wording of the same derivation: one step per stage, the
    pooled size being the floor of a quotient, the channel count being the
    stage's output channel count. *)
Definition spec_pool (old : Z) : Z :=
  (Qfloor (inject_Z (old - (2 - 1) - 1) / inject_Z 2) + 1)%Z.

Definition spec_stage (hwc : Z * Z * Z) (stage_out : Z) : Z * Z * Z :=
  let '(h, w, _) := hwc in (spec_pool h, spec_pool w, stage_out).

Definition spec_flat_dim (height width : Z) (stage_outs : list Z) : Z :=
  let '(h, w, c) := foldl spec_stage (height, width, 1) stage_outs in
  h * w * c.

Record Linear : Type := {
  in_features : Z;
  out_features : Z
}.

Section Construction.

(** [CNNEncoder] lives in [custom_encoders/encoders.py]; its constructor
    is a parameter of the development: it either returns an encoder or
    raises. *)
Context {Encoder : Type}.
Variable CNNEncoder_new : cnn_encoder_params -> result Encoder.

Record CNNModel : Type := {
  cnn_encoder : Encoder;
  output_dim : Z
}.

Definition CNNModel_init (config : CNNConfig) : result CNNModel :=
  encoder ← CNNEncoder_new (encoder_params config);
  Ok {| cnn_encoder := encoder; output_dim := compute_output_dim config |}.

Record CNNModelForSequenceClassification : Type := {
  cnn_model : CNNModel;
  head_module : Linear
}.

Definition CNNModelForSequenceClassification_init (config : CNNConfig)
  : result CNNModelForSequenceClassification :=
  base ← CNNModel_init config;
  Ok {| cnn_model := base;
        head_module := {| in_features := output_dim base;
                          out_features := n_labels config |} |}.

End Construction.

Arguments CNNModel : clear implicits.
Arguments CNNModelForSequenceClassification : clear implicits.

(** Modelled from the spec: the constructor of [CNNEncoder], of
    [custom_encoders/encoders.py], which is not among the sources and
    which line 39 calls with the dictionary [cnn_encoder_params].
    Section 4.1: malformed [cnn_encoder_params] (mismatched list lengths
    for input/output channel dims) must fail at construction with a
    clear configuration error, not silently truncate.  The configuration
    error is a [ValueError]; the encoder that is built keeps the
    parameters of its stages. *)
Definition CNNEncoder_init (params : cnn_encoder_params) : result cnn_encoder_params :=
  if bool_decide (length (input_dims params) = length (output_dims params))
  then Ok params
  else Raise ValueError.

(** A configuration cut down to its first [min (len input_dims)
    (len output_dims)] stages. *)
Definition truncated_params (p : cnn_encoder_params) : cnn_encoder_params :=
  let n := (length (input_dims p) `min` length (output_dims p))%nat in
  {| input_dims := take n (input_dims p);
     output_dims := take n (output_dims p);
     kernel_sizes := kernel_sizes p |}.

Definition truncated (config : CNNConfig) : CNNConfig :=
  {| encoder_params := truncated_params (encoder_params config);
     max_seq_len := max_seq_len config;
     label2id := label2id config |}.

(** The configuration of [cnn_model_main], over a three-label vocabulary. *)
Definition main_params : cnn_encoder_params :=
  {| input_dims := [1; 64; 128; 128; 64; 64];
     output_dims := [64; 128; 128; 64; 64; 10];
     kernel_sizes := [7; 5; 5; 5; 5; 1] |}.

Definition enumerate_labels (labels : list string) : gmap string Z :=
  list_to_map (reverse (imap (fun i x => (x, Z.of_nat i)) labels)).

Definition main_config (labels : list string) : CNNConfig :=
  {| encoder_params := main_params;
     max_seq_len := 100;
     label2id := enumerate_labels labels |}.

(** Two small configurations: two well-formed stages, and three input
    channel counts against two output channel counts. *)
Definition two_stage_config : CNNConfig :=
  {| encoder_params :=
       {| input_dims := [1; 64]; output_dims := [64; 10]; kernel_sizes := [7; 5] |};
     max_seq_len := 100;
     label2id := enumerate_labels ["a"; "b"; "c"; "d"; "e"; "f"; "g"; "h"]%string |}.

Definition mismatched_config : CNNConfig :=
  {| encoder_params :=
       {| input_dims := [1; 64; 128]; output_dims := [64; 10];
          kernel_sizes := [7; 5; 5] |};
     max_seq_len := 100;
     label2id := enumerate_labels ["a"; "b"; "c"; "d"; "e"; "f"; "g"; "h"]%string |}.

(** *** [NTPCNNModel.prepare_input] *)

(** A cell of a float tensor: a number, or one of the two kinds of value
    that a float division by zero produces.  Rounding is not modelled:
    the quotient of two integers is kept as the exact rational. *)
Inductive fval : Type :=
| FNum (q : Q)
| FInf (positive : bool)
| FNaN.

(** [x.float().div(d)] on one cell; a float division never raises. *)
Definition tensor_div (x d : Z) : fval :=
  if d =? 0 then (if x =? 0 then FNaN else FInf (0 <? x))
  else FNum (inject_Z x / inject_Z d).

(** Indexing an axis of length [n] with a Python integer: negative
    indices count from the end, anything else out of range raises. *)
Definition np_index (n : nat) (idx : Z) : result nat :=
  if bool_decide (0 <= idx < Z.of_nat n) then Ok (Z.to_nat idx)
  else if bool_decide (- Z.of_nat n <= idx < 0) then Ok (Z.to_nat (idx + Z.of_nat n))
  else Raise IndexError.

(** The [for title in titles] loop on the state [(last_repr, image_repr)];
    [image_repr] receives a copy of [last_repr] after every title. *)
Fixpoint title_loop (label2id : gmap string Z) (titles : list string)
    (last_repr : list Z) (image_repr : list (list Z)) : result (list (list Z)) :=
  match titles with
  | [] => Ok image_repr
  | title :: rest =>
      title_idx ← dict_get label2id title;
      i ← np_index (length last_repr) title_idx;
      let last_repr := alter (fun x => x + 1) i last_repr in
      title_loop label2id rest last_repr (image_repr ++ [last_repr])
  end.

(** [np.vstack] of a list of one-dimensional arrays. *)
Definition np_vstack (rows : list (list Z)) : result (list (list Z)) :=
  match rows with
  | [] => Raise ValueError
  | r :: _ =>
      if forallb (fun r' => bool_decide (length r' = length r)) rows
      then Ok rows else Raise ValueError
  end.

Definition width {A : Type} (image : list (list A)) : nat :=
  match image with
  | [] => 0%nat
  | r :: _ => length r
  end.

(** [np.pad(image, [(0, after), (0, 0)])]: zero rows appended below. *)
Definition np_pad_rows (image : list (list Z)) (after : Z) : result (list (list Z)) :=
  if after <? 0 then Raise ValueError
  else Ok (image ++ replicate (Z.to_nat after) (replicate (width image) 0)).

(** [np.max] of a two-dimensional array; it raises on an array without
    cells. *)
Definition np_max (image : list (list Z)) : result Z :=
  match concat image with
  | [] => Raise ValueError
  | x :: xs => Ok (foldl Z.max x xs)
  end.

(** Lines 142-154: the integer image of one title sequence. *)
Definition build_image (config : CNNConfig) (titles : list string)
    : result (list (list Z)) :=
  image_repr ← title_loop (label2id config) titles
                 (replicate (size (label2id config)) 0) [];
  image_repr ← np_vstack image_repr;
  np_pad_rows image_repr (max_seq_len config - Z.of_nat (length image_repr)).

(** Lines 155-156: division by the maximum, with the channel axis added. *)
Definition normalize_image (image_repr : list (list Z))
    : result (list (list (list fval))) :=
  max_image_repr_value ← np_max image_repr;
  Ok [map (map (fun x => tensor_div x max_image_repr_value)) image_repr].

Definition image_of_titles (config : CNNConfig) (titles : list string)
    : result (list (list (list fval))) :=
  image_repr ← build_image config titles;
  normalize_image image_repr.

(** The outer [for titles in batch['titles']] loop. *)
Fixpoint batch_loop (config : CNNConfig) (batch_titles : list (list string))
    : result (list (list (list (list fval)))) :=
  match batch_titles with
  | [] => Ok []
  | titles :: rest =>
      image_repr ← image_of_titles config titles;
      image_reprs ← batch_loop config rest;
      Ok (image_repr :: image_reprs)
  end.

Definition shape3 {A : Type} (t : list (list (list A))) : nat * nat * nat :=
  (length t, width t, width (hd [] t)).

(** [torch.stack]: a non-empty list of tensors of one shape. *)
Definition torch_stack {A : Type} (tensors : list (list (list (list A))))
    : result (list (list (list (list A)))) :=
  match tensors with
  | [] => Raise RuntimeError
  | t :: _ =>
      if forallb (fun t' => bool_decide (shape3 t' = shape3 t)) tensors
      then Ok tensors else Raise RuntimeError
  end.

Record batch : Type := {
  titles : list (list string);
  labels : option (list (list Z))
}.

Record input_dict : Type := {
  image : list (list (list (list fval)));
  flat_labels : option (list Z)
}.

Definition prepare_input (config : CNNConfig) (b : batch) : result input_dict :=
  image_reprs ← batch_loop config (titles b);
  stacked ← torch_stack image_reprs;
  Ok {| image := stacked; flat_labels := @concat Z <$> labels b |}.

Definition shape4 {A : Type} (t : list (list (list (list A))))
    : nat * nat * nat * nat :=
  (length t, width t, width (hd [] t), width (hd [] (hd [] t))).

(** The Image Representation in the words of the data model: cell
    [(i, j)] counts the positions [0..i] of the sequence whose label has
    id [j]; rows past the sequence are zero. *)
Definition spec_count (label2id : gmap string Z) (titles : list string)
    (i j : nat) : Z :=
  Z.of_nat (length (filter (fun t => label2id !! t = Some (Z.of_nat j))
                           (take (S i) titles))).

Definition spec_image (config : CNNConfig) (titles : list string)
    : list (list Z) :=
  let n := size (label2id config) in
  (fun i => if bool_decide (i < length titles)%nat
            then (fun j => spec_count (label2id config) titles i j) <$> seq 0 n
            else replicate n 0) <$> seq 0 (Z.to_nat (max_seq_len config)).

(** The rows that the title loop appends when it starts from an
    arbitrary [last_repr]: the counts so far plus the counts of the
    titles read. *)
Definition counts_from (label2id : gmap string Z) (titles : list string)
    (last_repr : list Z) : list (list Z) :=
  (fun i => (fun j => default 0 (last_repr !! j) + spec_count label2id titles i j)
              <$> seq 0 (length last_repr))
    <$> seq 0 (length titles).

(** A vocabulary with dense ids: every id indexes a cell of a row of
    [len(label2id)] cells. *)
Definition dense_ids (config : CNNConfig) : Prop :=
  forall title id, label2id config !! title = Some id ->
    0 <= id < Z.of_nat (size (label2id config)).

(** The three conditions on one title sequence. *)
Definition admissible (config : CNNConfig) (titles : list string) : Prop :=
  titles <> [] /\
  Z.of_nat (length titles) <= max_seq_len config /\
  forall title, title ∈ titles -> is_Some (label2id config !! title).

(** A title sequence that breaks one of them. *)
Definition inadmissible (config : CNNConfig) (titles : list string) : Prop :=
  titles = [] \/
  max_seq_len config < Z.of_nat (length titles) \/
  exists title, title ∈ titles /\ label2id config !! title = None.

(** A vocabulary of three labels and images of four rows. *)
Definition small_config : CNNConfig :=
  {| encoder_params := main_params;
     max_seq_len := 4;
     label2id := enumerate_labels ["a"; "b"; "c"]%string |}.

Definition small_batch : batch :=
  {| titles := [["a"]; ["b"; "c"; "b"]]%string; labels := Some [[1]; [2]] |}.

Definition empty_batch : batch := {| titles := []; labels := None |}.

Definition all_zero (image : list (list Z)) : Prop :=
  Forall (Forall (fun x => x = 0)) image.

Definition in_unit_interval (v : fval) : Prop :=
  match v with
  | FNum q => (0 <= q <= 1)%Q
  | _ => False
  end.

End CNN.

(** ** The T5 model: [t5.py] *)

Module T5.

(** *** [NTPT5.prepare_input] *)

(** [pad_sequence(sequences, batch_first=True, padding_value=...)]: every
    sequence is extended to the longest length of the list it is in. *)
Definition pad_sequence (sequences : list (list Z)) (padding_value : Z)
    : result (list (list Z)) :=
  match sequences with
  | [] => Raise RuntimeError
  | _ =>
      let max_len := max_list (length <$> sequences) in
      Ok ((fun s => s ++ replicate (max_len - length s)%nat padding_value)
            <$> sequences)
  end.

Definition ignore_index : Z := -100.

(** [lm_labels[lm_labels == pad_token_id] = -100] *)
Definition mask_pad (pad_token_id : Z) (lm_labels : list (list Z)) : list (list Z) :=
  map (map (fun x => if bool_decide (x = pad_token_id) then ignore_index else x))
      lm_labels.

Record batch : Type := {
  batch_input_ids : list (list Z);
  batch_attention_mask : list (list Z);
  batch_labels : option (list (list Z));
  batch_immediate_next_title : option (list string)
}.

Record input_dict : Type := {
  input_ids : list (list Z);
  attention_mask : list (list Z);
  labels : option (list (list Z));
  next_titles : option (list string)
}.

Definition prepare_input (pad_token_id : Z) (training : bool) (b : batch)
    : result input_dict :=
  ids ← pad_sequence (batch_input_ids b) pad_token_id;
  mask ← pad_sequence (batch_attention_mask b) pad_token_id;
  lm ← match batch_labels b with
        | Some l =>
            lm_labels ← pad_sequence l pad_token_id;
            Ok (Some (mask_pad pad_token_id lm_labels))
        | None => Ok None
        end;
  nt ← (if training then Ok None
         else match batch_immediate_next_title b with
              | Some t => Ok (Some t)
              | None => Raise KeyError
              end);
  Ok {| input_ids := ids; attention_mask := mask; labels := lm; next_titles := nt |}.

Definition max_len (sequences : list (list Z)) : nat :=
  max_list (length <$> sequences).

(** [rows] holds every sequence of [sequences], followed by [fill] up to
    the longest length occurring in [sequences]. *)
Definition padded_to (fill : Z) (sequences rows : list (list Z)) : Prop :=
  length rows = length sequences /\
  forall i s, sequences !! i = Some s ->
    exists row, rows !! i = Some row /\
      length row = max_len sequences /\
      (forall p x, s !! p = Some x -> row !! p = Some x) /\
      (forall p, (length s <= p < max_len sequences)%nat -> row !! p = Some fill).

(** [rows] holds every label sequence with its pad-valued positions
    replaced by the ignore sentinel, followed by the sentinel up to the
    longest length occurring in [sequences]. *)
Definition masked_labels (pad_token_id : Z) (sequences rows : list (list Z)) : Prop :=
  length rows = length sequences /\
  forall i s, sequences !! i = Some s ->
    exists row, rows !! i = Some row /\
      length row = max_len sequences /\
      (forall p x, s !! p = Some x ->
         row !! p = Some (if bool_decide (x = pad_token_id) then ignore_index else x)) /\
      (forall p, (length s <= p < max_len sequences)%nat ->
         row !! p = Some ignore_index).

Definition ragged_batch : batch :=
  {| batch_input_ids := [[5; 6; 7]; [8]];
     batch_attention_mask := [[1; 1; 1]; [1]];
     batch_labels := Some [[9; 0; 3]; [4; 1]];
     batch_immediate_next_title := Some ["x"; "y"]%string |}.

(** *** [NTPT5.valid_step]: from the similarity matrix to the match count *)

(** [argmax] along a row, the first maximum winning. *)
Fixpoint argmax_from (best_i : nat) (best : Q) (i : nat) (row : list Q) : nat :=
  match row with
  | [] => best_i
  | x :: rest =>
      if Qle_bool x best then argmax_from best_i best (S i) rest
      else argmax_from i x (S i) rest
  end.

Definition argmax (row : list Q) : result nat :=
  match row with
  | [] => Raise IndexError
  | x :: rest => Ok (argmax_from 0 x 1 rest)
  end.

Fixpoint argmax_rows (sim : list (list Q)) : result (list nat) :=
  match sim with
  | [] => Ok []
  | row :: rest =>
      i ← argmax row;
      js ← argmax_rows rest;
      Ok (i :: js)
  end.

(** [all_unique_labels[indices]] on a NumPy array of labels, which is
    what [NTPT5Config] holds by default: one label per index.  The
    indexing of line 192 on either container of the labels is
    [index_labels] below. *)
Fixpoint fancy_index (arr : list string) (indices : list nat) : result (list string) :=
  match indices with
  | [] => Ok []
  | i :: rest =>
      x ← match arr !! i with Some x => Ok x | None => Raise IndexError end;
      xs ← fancy_index arr rest;
      Ok (x :: xs)
  end.

(** [a[start:stop]] with Python's clamping of both bounds. *)
Definition clamp_bound (n : nat) (i : Z) : Z :=
  if i <? 0 then Z.max 0 (i + Z.of_nat n) else Z.min i (Z.of_nat n).

Definition py_slice {A : Type} (a : list A) (start stop : Z) : list A :=
  let s := clamp_bound (length a) start in
  let e := clamp_bound (length a) stop in
  take (Z.to_nat (e - s)) (drop (Z.to_nat s) a).

(** [truth in mapped_predictions[j * k:(j + 1) * k]] *)
Definition in_block (mapped_predictions : list string) (k : Z) (j : nat)
    (truth : string) : bool :=
  bool_decide (truth ∈ py_slice mapped_predictions
                         (Z.of_nat j * k) ((Z.of_nat j + 1) * k)).

Definition py_sum (l : list Z) : Z := foldl Z.add 0 l.

Definition count_matches (mapped_predictions : list string) (k : Z)
    (target_text : list string) : Z :=
  py_sum (imap (fun j truth =>
                  if in_block mapped_predictions k j truth then 1 else 0)
               target_text).

(** Lines 191-198 on a NumPy array of labels, from the similarity matrix
    on: [sim] has one row per generated sentence and one column per
    label.  [valid_step_from_sim] below is the same lines on either
    container of the labels. *)
Definition map_predictions (all_unique_labels : list string) (sim : list (list Q))
    : result (list string) :=
  indices ← argmax_rows sim;
  fancy_index all_unique_labels indices.

Definition valid_step_matches (all_unique_labels : list string)
    (num_return_sequences : Z) (sim : list (list Q)) (target_text : list string)
    : result Z :=
  mapped_predictions ← map_predictions all_unique_labels sim;
  Ok (count_matches mapped_predictions num_return_sequences target_text).



(** [j] maximises the row. *)
Definition is_argmax (row : list Q) (j : nat) : Prop :=
  exists best, row !! j = Some best /\
    forall i x, row !! i = Some x -> (x <= best)%Q.

(** *** Configuration and tokenization *)

(** [all_unique_labels] is a NumPy array in a fresh configuration and a
    plain list in the dictionary form. *)
Inductive labels_value : Type :=
| NdArray (items : list string)
| PyList (items : list string).

Definition label_items (v : labels_value) : list string :=
  match v with
  | NdArray items => items
  | PyList items => items
  end.

(** *** Line 192 on either container of the labels *)








Record sample : Type := {
  input_title_sequence : list string;
  immediate_next_title : string;
  input_keywords_sequence : list string
}.

Section Model.

(** [Task] and its methods live in [lm/t5/templates.py]; the tokenizer
    and the random generator are libraries.  They are parameters. *)
Context {Task Params Prim Rng Mapper Encoding : Type}.
Variable to_json : Task -> string * Params.
Variable from_eval : string -> Params -> result Task.
Variable DirectNTP : Task.
Variable randbelow : Rng -> nat -> nat * Rng.
Variable render : Task -> list string -> string -> option Mapper -> list string
                  -> result (string * string).
Variable tokenizer : string -> string -> Encoding.

Record NTPT5Config : Type := {
  training_tasks : list Task;
  test_task : Task;
  all_unique_labels : labels_value;
  device : string;
  t5_fields : gmap string Prim
}.

(** [NTPT5Config.__init__] with its defaults. *)
Definition NTPT5Config_init (training_tasks : option (list Task))
    (test_task : option Task) (all_unique_labels : option labels_value)
    (device : option string) (kwargs : gmap string Prim) : NTPT5Config :=
  {| training_tasks := default [] training_tasks;
     test_task := default DirectNTP test_task;
     all_unique_labels := default (NdArray []) all_unique_labels;
     device := default "cpu"%string device;
     t5_fields := kwargs |}.

(** A task inside a dictionary: the object, or its (class, parameters)
    pair. *)
Inductive task_value : Type :=
| TaskObj (t : Task)
| TaskJson (task_class : string) (parameters : Params).

Record config_dict : Type := {
  d_training_tasks : option (list task_value);
  d_test_task : option task_value;
  d_all_unique_labels : option labels_value;
  d_device : option string;
  d_rest : gmap string Prim
}.

Record from_dict_kwargs : Type := {
  kw_training_tasks : option (list Task);
  kw_test_task : option Task;
  kw_all_unique_labels : option labels_value
}.

Definition no_kwargs : from_dict_kwargs :=
  {| kw_training_tasks := None; kw_test_task := None;
     kw_all_unique_labels := None |}.

(** Unpacking a (class, parameters) pair and calling [Task.from_eval];
    a task object cannot be unpacked. *)
Definition eval_task (v : task_value) : result Task :=
  match v with
  | TaskJson task_class parameters => from_eval task_class parameters
  | TaskObj _ => Raise TypeError
  end.

Fixpoint eval_tasks (l : list task_value) : result (list Task) :=
  match l with
  | [] => Ok []
  | v :: rest =>
      eval_task ← eval_task v;
      eval_training_tasks ← eval_tasks rest;
      Ok (eval_task :: eval_training_tasks)
  end.

Definition from_dict (d : config_dict) (kwargs : from_dict_kwargs)
    : result NTPT5Config :=
  training_tasks ←
    match kw_training_tasks kwargs with
    | Some ts => Ok ts
    | None =>
        match d_training_tasks d with
        | Some l => eval_tasks l
        | None => Raise KeyError
        end
    end;
  test_task ←
    match kw_test_task kwargs with
    | Some t => Ok (Some t)
    | None =>
        match d_test_task d with
        | Some v => t ← eval_task v; Ok (Some t)
        | None => Ok None
        end
    end;
  let all_unique_labels :=
    match kw_all_unique_labels kwargs with
    | Some l => Some l
    | None => d_all_unique_labels d
    end in
  Ok (NTPT5Config_init (Some training_tasks) test_task all_unique_labels
        (d_device d) (d_rest d)).

Definition task_to_json (t : Task) : task_value :=
  TaskJson (to_json t).1 (to_json t).2.

Definition to_dict (config : NTPT5Config) : config_dict :=
  {| d_training_tasks := Some (task_to_json <$> training_tasks config);
     d_test_task := Some (task_to_json (test_task config));
     d_all_unique_labels := Some (PyList (label_items (all_unique_labels config)));
     d_device := Some (device config);
     d_rest := t5_fields config |}.

(** The wrapper object: its configuration, its mode and its mapper. *)
Record NTPT5 : Type := {
  config : NTPT5Config;
  training : bool;
  cluster_label_mapper : option Mapper
}.

(** [random.choice(seq)]: one draw below [len(seq)], then indexing. *)
Definition random_choice {A : Type} (seq : list A) (g : Rng) : result (A * Rng) :=
  match seq with
  | [] => Raise IndexError
  | _ =>
      let '(i, g') := randbelow g (length seq) in
      match seq !! i with
      | Some x => Ok (x, g')
      | None => Raise IndexError
      end
  end.

(** Line 138. *)
Definition select_task (self : NTPT5) (g : Rng) : result (Task * Rng) :=
  if training self then random_choice (training_tasks (config self)) g
  else Ok (test_task (config self), g).

Definition tokenize (self : NTPT5) (s : sample) (g : Rng)
    : result (Encoding * string * Rng) :=
  '(task, g') ← select_task self g;
  '(input_text, target_text) ←
     render task (input_title_sequence s) (immediate_next_title s)
            (cluster_label_mapper self) (input_keywords_sequence s);
  Ok (tokenizer input_text target_text, immediate_next_title s, g').

(** The tasks selected by successive calls, the generator threaded
    through them. *)
Fixpoint select_tasks (self : NTPT5) (calls : nat) (g : Rng)
    : result (list Task * Rng) :=
  match calls with
  | O => Ok ([], g)
  | S n =>
      '(task, g') ← select_task self g;
      '(tasks, g'') ← select_tasks self n g';
      Ok (task :: tasks, g'')
  end.

(** The successive draws below [n] of a generator. *)
Fixpoint draws (n : nat) (calls : nat) (g : Rng) : list nat :=
  match calls with
  | O => []
  | S c => (randbelow g n).1 :: draws n c (randbelow g n).2
  end.

End Model.

(** The task classes that [t5.py] imports and instantiates, with the
    one constructor parameter it passes ([BoolNTP] takes the labels). *)
Inductive TaskClass : Type :=
| DirectNTP
| DirectNTPSideInfo
| BoolNTP (all_labels : list string)
| ClusteredNTP
| ClusteredNTPSideInfo.

(** Modelled from the spec: [Task.to_json] and [Task.from_eval] of
    [templates.py], which is not among the sources: a task serializes to
    its class tag and its constructor parameters and is reconstructed
    from them. *)
Definition TaskClass_to_json (t : TaskClass) : string * list (list string) :=
  match t with
  | DirectNTP => ("DirectNTP", [])
  | DirectNTPSideInfo => ("DirectNTPSideInfo", [])
  | BoolNTP all_labels => ("BoolNTP", [all_labels])
  | ClusteredNTP => ("ClusteredNTP", [])
  | ClusteredNTPSideInfo => ("ClusteredNTPSideInfo", [])
  end%string.

Definition TaskClass_from_eval (task_class : string) (parameters : list (list string))
    : result TaskClass :=
  if String.eqb task_class "DirectNTP" then Ok DirectNTP
  else if String.eqb task_class "DirectNTPSideInfo" then Ok DirectNTPSideInfo
  else if String.eqb task_class "BoolNTP" then
    match parameters with
    | [all_labels] => Ok (BoolNTP all_labels)
    | _ => Raise TypeError
    end
  else if String.eqb task_class "ClusteredNTP" then Ok ClusteredNTP
  else if String.eqb task_class "ClusteredNTPSideInfo" then Ok ClusteredNTPSideInfo
  else Raise KeyError.

(** A generator that replays a fixed list of raw values. *)
Definition replay_randbelow (g : list nat) (n : nat) : nat * list nat :=
  match g with
  | [] => (0%nat, [])
  | r :: g' => ((r `mod` n)%nat, g')
  end.

(** The configuration and the wrapper that [t5_main] builds, over two
    labels. *)
Definition example_config : @NTPT5Config TaskClass string :=
  {| training_tasks := [DirectNTP; DirectNTPSideInfo; BoolNTP ["a"; "b"]%string];
     test_task := DirectNTPSideInfo;
     all_unique_labels := NdArray ["a"; "b"]%string;
     device := "cuda:0"%string;
     t5_fields := ∅ |}.

Definition example_model (training : bool) : @NTPT5 TaskClass string unit :=
  {| config := example_config; training := training;
     cluster_label_mapper := None |}.

(** A synthetic similarity matrix over four labels: three candidates for
    each of five inputs, the ground truth being in the input's own block
    for the first and the third input only. *)
Definition row_toward (j : nat) : list Q :=
  (fun i => if decide (i = j) then 1%Q else (1 # 2)%Q) <$> seq 0 4.

Definition synthetic_labels : list string := ["a"; "b"; "c"; "d"]%string.

Definition synthetic_sim : list (list Q) :=
  row_toward <$> [0; 1; 2;  0; 0; 0;  2; 3; 3;  1; 1; 2;  0; 0; 1]%nat.

Definition synthetic_truth : list string := ["b"; "d"; "d"; "a"; "c"]%string.

End T5.

(** ** Sentence encoders: [sentence_encoders.py] *)

Module SentEnc.

(** What an [encode_batch] returns for a chunk: a Torch tensor or a
    NumPy array, with one row per embedding. *)
Inductive encoded (Row : Type) : Type :=
| TorchTensor (rows : list Row)
| NumpyArray (rows : list Row).

Arguments TorchTensor {Row} rows.
Arguments NumpyArray {Row} rows.

Definition rows_of {Row : Type} (e : encoded Row) : list Row :=
  match e with
  | TorchTensor rows => rows
  | NumpyArray rows => rows
  end.

Definition is_tensor {Row : Type} (e : encoded Row) : bool :=
  match e with
  | TorchTensor _ => true
  | NumpyArray _ => false
  end.

Section Call.

(** [encode_batch] is the abstract method: it returns the encoding of a
    chunk, or raises. *)
Context {Row : Type}.
Variable encode_batch : list string -> result (encoded Row).

(** [ceil(num_rows / batch_size)] for a positive batch size. *)
Definition n_batches (num_rows batch_size : nat) : nat :=
  ((num_rows + batch_size - 1) `div` batch_size)%nat.

(** [dataset.iter(batch_size=...)]: the rows [start, start + batch_size)
    for [start] in [range(0, num_rows, batch_size)]. *)
Definition dataset_iter (batch_size : nat) (sentences : list string)
    : list (list string) :=
  (fun i => take batch_size (drop (i * batch_size) sentences))
    <$> seq 0 (n_batches (length sentences) batch_size).

(** The loop of lines 32-36: the chunks are encoded in order and the
    results appended to [outputs]; the first chunk that raises ends the
    call. *)
Fixpoint encode_chunks (chunks : list (list string)) : result (list (encoded Row)) :=
  match chunks with
  | [] => Ok []
  | batch_sentences :: rest =>
      encoded_batch ← encode_batch batch_sentences;
      outputs ← encode_chunks rest;
      Ok (encoded_batch :: outputs)
  end.

(** [torch.vstack]: its argument must be a sequence of tensors
    ([TypeError] for a NumPy array among them) and must not be empty
    ([RuntimeError]); the tensors are stacked by rows. *)
Definition torch_vstack (outputs : list (encoded Row)) : result (list Row) :=
  if forallb is_tensor outputs then
    match outputs with
    | [] => Raise RuntimeError
    | _ => Ok (concat (rows_of <$> outputs))
    end
  else Raise TypeError.

(** [SentenceEncoder.__call__]; a batch size of zero fails in the
    computation of the progress bar's total. *)
Definition call (batch_size : nat) (sentences : list string) : result (list Row) :=
  if (batch_size =? 0)%nat then Raise ZeroDivisionError
  else
    outputs ← encode_chunks (dataset_iter batch_size sentences);
    torch_vstack outputs.

End Call.

(** [SentenceTransformerEncoder.encode_batch]: the result of
    [SentenceTransformer.encode], which is a NumPy array for a list of
    sentences; the pretrained model is a parameter. *)
Definition SentenceTransformerEncoder_encode_batch {Row : Type}
    (model_encode : list string -> list Row) (batch_sentences : list string)
    : result (encoded Row) :=
  Ok (NumpyArray (model_encode batch_sentences)).

(** An encoder that returns, as a tensor, the length of every sentence. *)
Definition length_encoder (batch_sentences : list string) : result (encoded nat) :=
  Ok (TorchTensor (String.length <$> batch_sentences)).

End SentEnc.

(** ** The CNN wrapper around the model: tokenization and evaluation *)

Module CNNEval.

Import CNN.

(** [id2label={i: x for i, x in enumerate(all_unique_labels)}] of
    [cnn_model_main]; [label2id] is [CNN.enumerate_labels]. *)
Definition enumerate_ids (labels : list string) : gmap Z string :=
  list_to_map (reverse (imap (fun i x => (Z.of_nat i, x)) labels)).

Record sample : Type := {
  input_title_sequence : list string;
  immediate_next_title : string
}.

Record tokenized : Type := {
  tok_labels : list Z;
  tok_titles : list string
}.

(** [NTPCNNModel.tokenize] *)
Definition tokenize (config : CNNConfig) (s : sample) : result tokenized :=
  id ← dict_get (label2id config) (immediate_next_title s);
  Ok {| tok_labels := [id]; tok_titles := input_title_sequence s |}.

(** [[self.config.id2label[x.cpu().item()] for x in ids]] *)
Fixpoint ids_to_labels (id2label : gmap Z string) (ids : list Z)
    : result (list string) :=
  match ids with
  | [] => Ok []
  | x :: rest =>
      label ← match id2label !! x with
               | Some label => Ok label
               | None => Raise KeyError
               end;
      labels ← ids_to_labels id2label rest;
      Ok (label :: labels)
  end.

Section ValidStep.

(** The loss function is Torch's; it is a parameter, and so is the
    forward pass, whose logits are the input here. *)
Context {Loss : Type}.
Variable cross_entropy : list (list Q) -> list Z -> result Loss.

(** [NTPCNNModel.valid_step], from the logits on. *)
Definition valid_step (id2label : gmap Z string) (output : list (list Q))
    (truth : list Z) : result (list string * list string * Loss) :=
  predictions ← T5.argmax_rows output;
  val_loss ← cross_entropy output truth;
  predictions ← ids_to_labels id2label (Z.of_nat <$> predictions);
  truth ← ids_to_labels id2label truth;
  Ok (predictions, truth, val_loss).

End ValidStep.

(** [np.sum] of a row. *)
Definition row_sum (row : list Z) : Z := foldr Z.add 0 row.

End CNNEval.

(** ** The T5 wrapper: generation defaults and the test task *)

Module T5Init.

Import T5.

(** The values of the keyword arguments that [NTPT5.__init__] reads. *)
Inductive kwarg : Type :=
| KInt (n : Z)
| KBool (b : bool)
| KStr (s : string).

(** [d.pop(key, default)]: the value and the dictionary without the key. *)
Definition dict_pop {V : Type} (d : gmap string V) (key : string) (dflt : V)
    : V * gmap string V :=
  (default dflt (d !! key), delete key d).

(** [d[key] = d.pop(key, default)] *)
Definition pop_and_set {V : Type} (key : string) (dflt : V) (d : gmap string V)
    : gmap string V :=
  let '(v, d') := dict_pop d key dflt in <[key := v]> d'.

(** Lines 91-98 of [NTPT5.__init__]. *)
Definition generation_kwargs (config_and_gen_kwargs : gmap string kwarg)
    : gmap string kwarg :=
  let d := (dict_pop config_and_gen_kwargs "return_unused_kwargs" (KBool false)).2 in
  let d := pop_and_set "num_return_sequences" (KInt 5) d in
  let d := pop_and_set "max_new_tokens" (KInt 50) d in
  let d := pop_and_set "num_beams" (KInt 30) d in
  let d := pop_and_set "no_repeat_ngram_size" (KInt 0) d in
  pop_and_set "early_stopping" (KBool true) d.

Definition generation_keys : list string :=
  ["num_return_sequences"; "max_new_tokens"; "num_beams";
   "no_repeat_ngram_size"; "early_stopping"]%string.

Definition generation_default (key : string) : option kwarg :=
  if String.eqb key "num_return_sequences" then Some (KInt 5)
  else if String.eqb key "max_new_tokens" then Some (KInt 50)
  else if String.eqb key "num_beams" then Some (KInt 30)
  else if String.eqb key "no_repeat_ngram_size" then Some (KInt 0)
  else if String.eqb key "early_stopping" then Some (KBool true)
  else None.

(** [NTPT5.set_test_task] *)
Definition set_test_task {Task Prim Mapper : Type}
    (self : @NTPT5 Task Prim Mapper) (test_task : Task) : @NTPT5 Task Prim Mapper :=
  {| config :=
       {| training_tasks := training_tasks (config self);
          T5.test_task := test_task;
          all_unique_labels := all_unique_labels (config self);
          device := device (config self);
          t5_fields := t5_fields (config self) |};
     training := training self;
     cluster_label_mapper := cluster_label_mapper self |}.

End T5Init.

(** ** [BertSentenceEncoder]: fusing tokens and hidden states *)

Module Bert.

Inductive token_fusion : Type := TokenSum | TokenMean.
Inductive hidden_fusion : Type := HiddenSum | HiddenConcat.

(** The two dictionaries of [__init__] and the lookups of the strategy
    names in them, the hidden-state strategy first. *)
Definition hidden_states_available_fusions : gmap string hidden_fusion :=
  <["sum"%string := HiddenSum]> (<["concat"%string := HiddenConcat]> ∅).

Definition token_available_fusions : gmap string token_fusion :=
  <["sum"%string := TokenSum]> (<["mean"%string := TokenMean]> ∅).

Definition init_strategies (hidden_states_fusion_strat token_fusion_strat : string)
    : result (hidden_fusion * token_fusion) :=
  h ← dict_get hidden_states_available_fusions hidden_states_fusion_strat;
  t ← dict_get token_available_fusions token_fusion_strat;
  Ok (h, t).

(** [hidden_states[-hidden_states_num:]] on the tuple of hidden states. *)
Definition last_hidden_states {T : Type} (hidden_states : list T)
    (hidden_states_num : Z) : list T :=
  T5.py_slice hidden_states (- hidden_states_num) (Z.of_nat (length hidden_states)).

Section Encoder.

(** The cells of the tensors with their addition and the division by a
    token count are Torch's floats; the tokenizer and the model are
    pretrained.  They are parameters, and so is the model's latent
    dimension.  A hidden state is a list (batch) of lists (tokens) of
    vectors. *)
Context {A Tokens : Type}.
Variable add : A -> A -> A.
Variable zero : A.
Variable div_count : A -> nat -> A.
Variable latent_dim : nat.
Variable tokenizer : list string -> Tokens.
Variable model_hidden_states : Tokens -> list (list (list (list A))).

(** [torch.sum(h, dim=1)] and [torch.mean(h, dim=1)] on one element of
    the batch: the vectors of its tokens are added up. *)
Definition sum_tokens (tokens : list (list A)) : list A :=
  foldl (zip_with add) (replicate latent_dim zero) tokens.

Definition mean_tokens (tokens : list (list A)) : list A :=
  (fun x => div_count x (length tokens)) <$> sum_tokens tokens.

Definition _fuse_token_sum (hidden_states : list (list (list (list A))))
    : list (list (list A)) :=
  (fun single_hidden_state : list (list (list A)) =>
     sum_tokens <$> single_hidden_state) <$> hidden_states.

Definition _fuse_token_mean (hidden_states : list (list (list (list A))))
    : list (list (list A)) :=
  (fun single_hidden_state : list (list (list A)) =>
     mean_tokens <$> single_hidden_state) <$> hidden_states.

(** [torch.concat(list, dim=1)]: a non-empty list of matrices with the
    same number of rows, joined row by row. *)
Definition _fuse_hidden_states_concat (list_hs_encoded_sentences : list (list (list A)))
    : result (list (list A)) :=
  match list_hs_encoded_sentences with
  | [] => Raise RuntimeError
  | first :: rest =>
      if forallb (fun t => bool_decide (length t = length first)) rest
      then Ok (foldl (zip_with app) first rest)
      else Raise RuntimeError
  end.

(** [torch.stack(list).sum(dim=0)]: a non-empty list of matrices of one
    shape, added up cell by cell. *)
Definition _fuse_hidden_states_sum (list_hs_encoded_sentences : list (list (list A)))
    : result (list (list A)) :=
  match list_hs_encoded_sentences with
  | [] => Raise RuntimeError
  | first :: rest =>
      if forallb (fun t => bool_decide (length t = length first
                                        /\ CNN.width t = CNN.width first)) rest
      then Ok (foldl (zip_with (zip_with add)) first rest)
      else Raise RuntimeError
  end.

Definition encode_batch (hidden_states_fusion_strat : hidden_fusion)
    (token_fusion_strat : token_fusion) (hidden_states_num : Z)
    (batch_sentences : list string) : result (list (list A)) :=
  let tokenized_sentences := tokenizer batch_sentences in
  let output_hidden_states :=
    last_hidden_states (model_hidden_states tokenized_sentences) hidden_states_num in
  let list_hs_encoded_sentences :=
    match token_fusion_strat with
    | TokenSum => _fuse_token_sum output_hidden_states
    | TokenMean => _fuse_token_mean output_hidden_states
    end in
  match hidden_states_fusion_strat with
  | HiddenSum => _fuse_hidden_states_sum list_hs_encoded_sentences
  | HiddenConcat => _fuse_hidden_states_concat list_hs_encoded_sentences
  end.

(** A hidden state of [batch] sentences whose token vectors have the
    latent dimension. *)
Definition well_shaped (batch : nat) (hidden_state : list (list (list A))) : Prop :=
  length hidden_state = batch /\
  Forall (Forall (fun v => length v = latent_dim)) hidden_state.

End Encoder.

(** A matrix of [batch] rows of [w] cells. *)
Definition matrix_shape {A : Type} (batch w : nat) (m : list (list A)) : Prop :=
  length m = batch /\ Forall (fun row => length row = w) m.

(** A stand-in for the pretrained model: three hidden states, each with
    two tokens per sentence and vectors of two integers. *)
Definition toy_hidden_states (tokens : list string) : list (list (list (list Z))) :=
  (fun layer => (fun _ => [[layer; 1]; [2; 3]]) <$> tokens) <$> [10; 20; 30].

(** [BertSentenceEncoder.encode_batch] as [SentenceEncoder.__call__]
    receives it: the fused hidden states are a Torch tensor. *)
Definition BertSentenceEncoder_encode_batch {A Tokens : Type}
    (add : A -> A -> A) (zero : A) (div_count : A -> nat -> A) (latent_dim : nat)
    (tokenizer : list string -> Tokens)
    (model_hidden_states : Tokens -> list (list (list (list A))))
    (hidden_states_fusion_strat : hidden_fusion)
    (token_fusion_strat : token_fusion) (hidden_states_num : Z)
    (batch_sentences : list string) : result (SentEnc.encoded (list A)) :=
  rows ← encode_batch add zero div_count latent_dim tokenizer model_hidden_states
         hidden_states_fusion_strat token_fusion_strat hidden_states_num
         batch_sentences;
  Ok (SentEnc.TorchTensor rows).

(** A stand-in for the tokenizer called with [padding=True] and for the
    pretrained model: one token [1] per character, every sentence of the
    chunk filled with the pad token [0] up to the longest one, and a
    single hidden state whose vector for a token is the token plus one. *)
Definition padding_tokenizer (batch_sentences : list string) : list (list Z) :=
  let longest := max_list (String.length <$> batch_sentences) in
  (fun sentence =>
     replicate (String.length sentence) 1
     ++ replicate (longest - String.length sentence) 0) <$> batch_sentences.

Definition padding_hidden_states (tokens : list (list Z))
    : list (list (list (list Z))) :=
  [(fun sentence : list Z => (fun token => [token + 1]) <$> sentence) <$> tokens].

Definition toy_bert : list string -> result (SentEnc.encoded (list Z)) :=
  BertSentenceEncoder_encode_batch Z.add 0 (fun x n => x `div` Z.of_nat n) 1
    padding_tokenizer padding_hidden_states HiddenSum TokenSum 1.

End Bert.

(** * Properties *)

Module PyFacts.

Lemma bind_Ok {A B : Type} (m : result A) (k : A -> result B) (b : B) :
  m ≫= k = Ok b -> exists a, m = Ok a /\ k a = Ok b.
Proof. destruct m as [a|e]; simpl; [eauto | discriminate]. Qed.

Lemma bind_raises_l {A B : Type} (m : result A) (k : A -> result B) :
  raises m -> raises (m ≫= k).
Proof. intros [e ->]. exists e. reflexivity. Qed.

Lemma raises_or_returns {A : Type} (m : result A) : raises m \/ returns m.
Proof. destruct m as [a|e]; [right; exists a | left; exists e]; reflexivity. Qed.

Lemma not_returns_raises {A : Type} (m : result A) :
  (forall a, m <> Ok a) -> raises m.
Proof.
  intros H. destruct m as [a|e]; [destruct (H a); reflexivity|].
  exists e. reflexivity.
Qed.

Lemma dict_get_Ok {V : Type} (d : gmap string V) (key : string) (v : V) :
  dict_get d key = Ok v <-> d !! key = Some v.
Proof.
  unfold dict_get. destruct (d !! key); split; intros H; congruence.
Qed.

End PyFacts.

Module CNNFacts.

Import CNN PyFacts.

(** *** The expected output dimension *)

Lemma pooled_half (x : Z) : pooled x = x `div` 2.
Proof.
  unfold pooled, dilation, kernel_size, stride.
  replace (x - 1 * (2 - 1) - 1) with (x + (-1) * 2) by lia.
  rewrite Z.div_add by lia. lia.
Qed.

Lemma spec_pool_pooled (x : Z) : spec_pool x = pooled x.
Proof.
  unfold spec_pool, pooled, dilation, kernel_size, stride.
  unfold Qdiv, Qmult, Qinv, inject_Z, Qfloor. simpl.
  replace ((x - (2 - 1) - 1) * 1) with (x - 1 * (2 - 1) - 1) by lia.
  reflexivity.
Qed.

Lemma stage_loop_foldl (ins outs : list Z) (hwc : Z * Z * Z) :
  length ins = length outs ->
  stage_loop (zip ins outs) hwc = foldl spec_stage hwc outs.
Proof.
  revert outs hwc.
  induction ins as [|c_in ins IH]; intros [|c_out outs] hwc Hlen;
    simpl in Hlen; try discriminate; [reflexivity|].
  destruct hwc as [[h w] c]. simpl.
  rewrite !spec_pool_pooled. apply IH. congruence.
Qed.

Lemma zip_take_min {A B : Type} (l : list A) (k : list B) :
  zip (take (length l `min` length k) l) (take (length l `min` length k) k)
  = zip l k.
Proof.
  revert k. induction l as [|a l IH]; intros [|b k]; simpl; try reflexivity.
  f_equal. apply IH.
Qed.

Lemma compute_output_dim_truncated (config : CNNConfig) :
  compute_output_dim (truncated config) = compute_output_dim config.
Proof.
  unfold compute_output_dim, expected_shape, truncated, truncated_params,
    n_labels. simpl. rewrite zip_take_min. reflexivity.
Qed.

(** The height after [n] stages is the floor of [max_seq_len / 2^n]. *)
Lemma stage_loop_closed_form (stages : list (Z * Z)) (h w c : Z) :
  0 <= h -> 0 <= w ->
  exists c', stage_loop stages (h, w, c)
             = (h `div` 2 ^ Z.of_nat (length stages),
                w `div` 2 ^ Z.of_nat (length stages), c').
Proof.
  revert h w c. induction stages as [|[c_in c_out] stages IH]; intros h w c Hh Hw.
  - exists c. simpl. rewrite !Z.div_1_r. reflexivity.
  - simpl stage_loop. rewrite !pooled_half.
    destruct (IH (h `div` 2) (w `div` 2) c_out) as [c' ->];
      [apply Z.div_pos; lia | apply Z.div_pos; lia |].
    exists c'. rewrite length_cons, Nat2Z.inj_succ, Z.pow_succ_r by lia.
    rewrite !Z.div_div by lia. reflexivity.
Qed.

(** C1.  Whenever the encoder is constructed and the two channel lists
    describe the same stages, [CNNModelForSequenceClassification] is
    constructed, its [output_dim] is the product [h * w * c] obtained from
    [max_seq_len], the label count and one channel by applying, stage by
    stage, [new = floor((old - (kernel - 1) - 1) / stride) + 1] with
    kernel 2 and stride 2 to height and width and taking the stage's
    output channel count, and its linear head has that input width and
    the label count as output width. *)
Theorem head_width_is_flattened_shape {Encoder : Type}
    (CNNEncoder_new : cnn_encoder_params -> result Encoder)
    (config : CNNConfig) (encoder : Encoder) :
  length (input_dims (encoder_params config))
    = length (output_dims (encoder_params config)) ->
  CNNEncoder_new (encoder_params config) = Ok encoder ->
  exists model,
    CNNModelForSequenceClassification_init CNNEncoder_new config = Ok model /\
    output_dim (cnn_model model)
      = spec_flat_dim (max_seq_len config) (n_labels config)
          (output_dims (encoder_params config)) /\
    in_features (head_module model) = output_dim (cnn_model model) /\
    out_features (head_module model) = n_labels config.
Proof.
  intros Hlen Henc.
  unfold CNNModelForSequenceClassification_init, CNNModel_init.
  rewrite Henc. simpl. eexists. split; [reflexivity|]. simpl.
  split; [|split; reflexivity].
  unfold compute_output_dim, expected_shape, spec_flat_dim.
  rewrite stage_loop_foldl by exact Hlen. reflexivity.
Qed.

Lemma head_width_is_flattened_shape_witness :
  exists model,
    CNNModelForSequenceClassification_init (fun p => Ok p) two_stage_config
      = Ok model /\
    output_dim (cnn_model model) = 500 /\
    in_features (head_module model) = 500 /\
    out_features (head_module model) = 8.
Proof.
  destruct (head_width_is_flattened_shape (fun p => Ok p) two_stage_config
              (encoder_params two_stage_config))
    as (model & Hinit & Hdim & Hin & Hout); [reflexivity | reflexivity |].
  exists model. split; [exact Hinit|].
  rewrite Hin, Hout, Hdim. vm_compute. auto.
Defined.

(** C3.  With the constructor of [CNNEncoder] that the specification
    describes, constructing [CNNModel], and with it
    [CNNModelForSequenceClassification], on channel lists of different
    lengths fails with the configuration error, which line 39 raises
    before any stage is derived; and whenever the construction returns,
    the two lists have the same length and [output_dim] is the flattened
    dimension over every stage of [output_dims], none being dropped. *)
Theorem mismatched_lists_fail_at_construction (config : CNNConfig) :
  (length (input_dims (encoder_params config))
     <> length (output_dims (encoder_params config)) ->
   CNNModel_init CNNEncoder_init config = Raise ValueError /\
   CNNModelForSequenceClassification_init CNNEncoder_init config = Raise ValueError) /\
  (forall model, CNNModel_init CNNEncoder_init config = Ok model ->
     length (input_dims (encoder_params config))
       = length (output_dims (encoder_params config)) /\
     cnn_encoder model = encoder_params config /\
     output_dim model
       = spec_flat_dim (max_seq_len config) (n_labels config)
           (output_dims (encoder_params config))).
Proof.
  unfold CNNModelForSequenceClassification_init, CNNModel_init, CNNEncoder_init.
  split.
  - intros Hne. rewrite bool_decide_eq_false_2 by exact Hne. split; reflexivity.
  - intros model. case_bool_decide as Hlen; simpl; [|discriminate].
    intros [= <-]. simpl. split; [exact Hlen|]. split; [reflexivity|].
    unfold compute_output_dim, expected_shape, spec_flat_dim.
    rewrite stage_loop_foldl by exact Hlen. reflexivity.
Qed.

Lemma mismatched_lists_fail_at_construction_witness :
  CNNModel_init CNNEncoder_init mismatched_config = Raise ValueError /\
  CNNModelForSequenceClassification_init CNNEncoder_init mismatched_config
    = Raise ValueError /\
  exists model,
    CNNModel_init CNNEncoder_init two_stage_config = Ok model /\
    output_dim model = 500.
Proof.
  destruct (proj1 (mismatched_lists_fail_at_construction mismatched_config))
    as [Hbase Hhead]; [simpl; lia|].
  split; [exact Hbase|]. split; [exact Hhead|].
  eexists. split; [reflexivity|].
  destruct (proj2 (mismatched_lists_fail_at_construction two_stage_config) _ eq_refl)
    as (_ & _ & Hdim).
  rewrite Hdim. vm_compute. reflexivity.
Defined.

(** *** The image of a title sequence *)

Lemma spec_count_nonneg l2i titles i j : 0 <= spec_count l2i titles i j.
Proof. unfold spec_count. lia. Qed.

Lemma spec_count_head l2i t rest j :
  spec_count l2i (t :: rest) 0 j
  = if bool_decide (l2i !! t = Some (Z.of_nat j)) then 1 else 0.
Proof.
  unfold spec_count. simpl take. rewrite take_0.
  rewrite filter_cons, filter_nil.
  case_bool_decide; case_decide; simpl; try lia; contradiction.
Qed.

Lemma spec_count_cons l2i t rest i j :
  spec_count l2i (t :: rest) (S i) j
  = spec_count l2i (t :: rest) 0 j + spec_count l2i rest i j.
Proof.
  rewrite spec_count_head. unfold spec_count.
  change (take (S (S i)) (t :: rest)) with (t :: take (S i) rest).
  rewrite filter_cons.
  case_bool_decide; case_decide; simpl; try lia; contradiction.
Qed.

Lemma spec_count_mono l2i titles i i' j :
  (i <= i')%nat -> spec_count l2i titles i j <= spec_count l2i titles i' j.
Proof.
  intros Hle. unfold spec_count.
  replace (S i') with (S i + (i' - i))%nat by lia.
  rewrite <- (take_take_drop titles (S i) (i' - i)).
  rewrite filter_app, length_app. lia.
Qed.

Lemma np_index_in_range (n : nat) (id : Z) :
  0 <= id < Z.of_nat n -> np_index n id = Ok (Z.to_nat id).
Proof. intros H. unfold np_index. rewrite bool_decide_eq_true_2; done. Qed.

Lemma np_index_Ok (n : nat) (id : Z) (i : nat) :
  np_index n id = Ok i -> (i < n)%nat.
Proof.
  unfold np_index. repeat case_bool_decide; intros [= <-]; lia.
Qed.

Lemma bumped_row l2i t rest (last_repr : list Z) (id : Z) :
  l2i !! t = Some id -> 0 <= id < Z.of_nat (length last_repr) ->
  (fun j => default 0 (last_repr !! j) + spec_count l2i (t :: rest) 0 j)
    <$> seq 0 (length last_repr)
  = alter (fun x => x + 1) (Z.to_nat id) last_repr.
Proof.
  intros Hid Hrange. apply list_eq. intros j.
  rewrite list_lookup_fmap, list_lookup_alter.
  destruct (decide (j < length last_repr)%nat) as [Hj|Hj].
  - rewrite lookup_seq_lt by exact Hj. simpl.
    rewrite spec_count_head, Hid.
    destruct (lookup_lt_is_Some_2 last_repr j Hj) as [x Hx].
    case_decide as Hk.
    + subst j. rewrite Hx. simpl.
      rewrite bool_decide_eq_true_2 by (f_equal; lia). reflexivity.
    + rewrite Hx. simpl.
      rewrite bool_decide_eq_false_2; [f_equal; lia|].
      intros [= ->]. apply Hk. lia.
  - rewrite lookup_seq_ge by lia. simpl.
    case_decide as Hk; [lia|]. symmetry. apply lookup_ge_None. lia.
Qed.

Lemma counts_from_cons l2i t rest (last_repr : list Z) (id : Z) :
  l2i !! t = Some id -> 0 <= id < Z.of_nat (length last_repr) ->
  counts_from l2i (t :: rest) last_repr
  = alter (fun x => x + 1) (Z.to_nat id) last_repr
    :: counts_from l2i rest (alter (fun x => x + 1) (Z.to_nat id) last_repr).
Proof.
  intros Hid Hrange. unfold counts_from.
  rewrite length_cons. simpl seq. rewrite fmap_cons.
  rewrite (bumped_row l2i t rest last_repr id Hid Hrange). f_equal.
  rewrite <- fmap_S_seq, <- list_fmap_compose, length_alter.
  apply list_fmap_ext. intros _ i _. simpl.
  rewrite <- (bumped_row l2i t rest last_repr id Hid Hrange).
  apply list_eq. intros j. rewrite !list_lookup_fmap.
  destruct (decide (j < length last_repr)%nat) as [Hj|Hj].
  - rewrite lookup_seq_lt by exact Hj. simpl. f_equal.
    rewrite list_lookup_fmap, lookup_seq_lt by exact Hj. simpl.
    rewrite spec_count_cons. lia.
  - rewrite lookup_seq_ge by lia. reflexivity.
Qed.

Lemma title_loop_counts l2i titles (last_repr : list Z) image_repr :
  (forall t, t ∈ titles ->
     exists id, l2i !! t = Some id /\ 0 <= id < Z.of_nat (length last_repr)) ->
  title_loop l2i titles last_repr image_repr
  = Ok (image_repr ++ counts_from l2i titles last_repr).
Proof.
  revert last_repr image_repr.
  induction titles as [|t rest IH]; intros last_repr image_repr Hin.
  - simpl. unfold counts_from. simpl. rewrite app_nil_r. reflexivity.
  - destruct (Hin t) as (id & Hid & Hrange); [left|].
    simpl. unfold dict_get. rewrite Hid. simpl.
    rewrite np_index_in_range by exact Hrange. simpl.
    rewrite IH.
    + rewrite (counts_from_cons l2i t rest last_repr id Hid Hrange).
      rewrite <- app_assoc. reflexivity.
    + intros t' Ht'. rewrite length_alter. apply Hin. right. exact Ht'.
Qed.

Lemma counts_from_zero l2i titles (n : nat) :
  counts_from l2i titles (replicate n 0)
  = (fun i => (fun j => spec_count l2i titles i j) <$> seq 0 n)
      <$> seq 0 (length titles).
Proof.
  unfold counts_from. rewrite length_replicate.
  apply list_fmap_ext. intros _ i _.
  apply list_eq. intros j. rewrite !list_lookup_fmap.
  destruct (decide (j < n)%nat) as [Hj|Hj].
  - rewrite lookup_seq_lt by exact Hj. simpl.
    rewrite lookup_replicate_2 by exact Hj. reflexivity.
  - rewrite lookup_seq_ge by lia. reflexivity.
Qed.

Lemma np_vstack_uniform (rows : list (list Z)) (n : nat) :
  rows <> [] -> Forall (fun r => length r = n) rows -> np_vstack rows = Ok rows.
Proof.
  intros Hne Hall. destruct rows as [|r rows]; [done|].
  unfold np_vstack.
  assert (length r = n) as Hr by (inversion Hall; assumption).
  replace (forallb _ (r :: rows)) with true; [reflexivity|].
  symmetry. apply forallb_forall. intros r' Hin.
  apply bool_decide_eq_true_2.
  rewrite Forall_forall in Hall. rewrite Hr. apply Hall.
  apply list_elem_of_In. exact Hin.
Qed.

Lemma np_vstack_Ok (rows out : list (list Z)) :
  np_vstack rows = Ok out -> out = rows /\ rows <> [].
Proof.
  unfold np_vstack. destruct rows as [|r rows]; [discriminate|].
  destruct (forallb _ _); [|discriminate]. intros [= <-]. done.
Qed.

Lemma np_pad_rows_Ok (image out : list (list Z)) (after : Z) :
  np_pad_rows image after = Ok out ->
  0 <= after /\
  out = image ++ replicate (Z.to_nat after) (replicate (width image) 0).
Proof.
  unfold np_pad_rows. destruct (Z.ltb_spec after 0); [discriminate|].
  intros [= <-]. split; [lia | reflexivity].
Qed.

Lemma counts_from_length l2i titles last_repr :
  length (counts_from l2i titles last_repr) = length titles.
Proof. unfold counts_from. rewrite length_fmap, length_seq. reflexivity. Qed.

Lemma counts_from_widths l2i titles last_repr :
  Forall (fun r => length r = length last_repr) (counts_from l2i titles last_repr).
Proof.
  unfold counts_from. apply Forall_fmap, Forall_forall. intros i _. simpl.
  rewrite length_fmap, length_seq. reflexivity.
Qed.

Lemma admissible_in_range (config : CNNConfig) (titles : list string) :
  dense_ids config -> admissible config titles ->
  forall t, t ∈ titles ->
    exists id, label2id config !! t = Some id /\
      0 <= id < Z.of_nat (length (replicate (size (label2id config)) 0)).
Proof.
  intros Hdense (_ & _ & Hin) t Ht.
  destruct (Hin t Ht) as [id Hid]. exists id. split; [exact Hid|].
  rewrite length_replicate. exact (Hdense t id Hid).
Qed.

Lemma build_image_spec (config : CNNConfig) (titles : list string) :
  dense_ids config -> admissible config titles ->
  build_image config titles = Ok (spec_image config titles).
Proof.
  intros Hdense Hadm. pose proof Hadm as (Hne & Hlen & Hin).
  unfold build_image.
  rewrite (title_loop_counts _ _ _ _ (admissible_in_range _ _ Hdense Hadm)).
  simpl.
  set (rows := counts_from (label2id config) titles
                 (replicate (size (label2id config)) 0)).
  assert (length rows = length titles) as Hrows by apply counts_from_length.
  assert (Forall (fun r => length r = size (label2id config)) rows) as Hw.
  { pose proof (counts_from_widths (label2id config) titles
                  (replicate (size (label2id config)) 0)) as H.
    rewrite length_replicate in H. exact H. }
  assert (rows <> []) as Hrne.
  { intros Heq. rewrite Heq in Hrows. destruct titles; [done|discriminate]. }
  rewrite (np_vstack_uniform rows _ Hrne Hw). simpl.
  unfold np_pad_rows. rewrite Hrows.
  destruct (Z.ltb_spec (max_seq_len config - Z.of_nat (length titles)) 0); [lia|].
  f_equal. unfold spec_image.
  replace (Z.to_nat (max_seq_len config))
    with (length titles + Z.to_nat (max_seq_len config - Z.of_nat (length titles)))%nat
    by lia.
  rewrite seq_app, fmap_app. f_equal.
  - subst rows. rewrite counts_from_zero.
    apply list_fmap_ext. intros k i Hi. apply lookup_seq in Hi as [-> Hi].
    rewrite bool_decide_eq_true_2 by lia. reflexivity.
  - assert (width rows = size (label2id config)) as ->.
    { destruct rows as [|r rows']; [done|]. simpl. inversion Hw; assumption. }
    apply list_eq. intros k.
    rewrite list_lookup_fmap.
    destruct (decide (k < Z.to_nat (max_seq_len config - Z.of_nat (length titles)))%nat)
      as [Hk|Hk].
    + rewrite lookup_replicate_2 by exact Hk.
      rewrite lookup_seq_lt by exact Hk. simpl.
      rewrite bool_decide_eq_false_2 by lia. reflexivity.
    + rewrite lookup_seq_ge by lia. simpl. apply lookup_replicate_None. lia.
Qed.

Lemma spec_image_length config titles :
  length (spec_image config titles) = Z.to_nat (max_seq_len config).
Proof. unfold spec_image. rewrite length_fmap, length_seq. reflexivity. Qed.

Lemma spec_image_lookup config titles (i : nat) (row : list Z) :
  spec_image config titles !! i = Some row ->
  (i < Z.to_nat (max_seq_len config))%nat /\
  row = if bool_decide (i < length titles)%nat
        then (fun j => spec_count (label2id config) titles i j)
               <$> seq 0 (size (label2id config))
        else replicate (size (label2id config)) 0.
Proof.
  unfold spec_image. rewrite list_lookup_fmap.
  destruct (seq 0 (Z.to_nat (max_seq_len config)) !! i) as [k|] eqn:Hk;
    [|discriminate].
  apply lookup_seq in Hk as [-> Hk]. simpl. intros [= <-]. done.
Qed.

Lemma spec_image_widths config titles :
  Forall (fun r => length r = size (label2id config)) (spec_image config titles).
Proof.
  apply Forall_lookup. intros i row Hrow.
  apply spec_image_lookup in Hrow as [_ ->].
  case_bool_decide.
  - rewrite length_fmap, length_seq. reflexivity.
  - apply length_replicate.
Qed.

Lemma spec_image_cell config titles (i j : nat) (row : list Z) (x : Z) :
  spec_image config titles !! i = Some row -> row !! j = Some x ->
  x = if bool_decide (i < length titles)%nat
      then spec_count (label2id config) titles i j else 0.
Proof.
  intros Hrow Hx. apply spec_image_lookup in Hrow as [_ ->].
  case_bool_decide.
  - rewrite list_lookup_fmap in Hx.
    destruct (seq 0 (size (label2id config)) !! j) as [k|] eqn:Hk;
      [|discriminate].
    apply lookup_seq in Hk as [-> _]. simpl in Hx. congruence.
  - apply lookup_replicate in Hx as [-> _]. reflexivity.
Qed.

Lemma foldl_max_ge (xs : list Z) (x : Z) :
  x <= foldl Z.max x xs /\ Forall (fun y => y <= foldl Z.max x xs) xs.
Proof.
  revert x. induction xs as [|y xs IH]; intros x; simpl.
  - split; [lia | constructor].
  - destruct (IH (Z.max x y)) as [H1 H2]. split; [lia|].
    constructor; [lia | exact H2].
Qed.

Lemma elem_of_concat {A : Type} (ls : list (list A)) (x : A) :
  x ∈ concat ls <-> exists l, l ∈ ls /\ x ∈ l.
Proof.
  rewrite list_elem_of_In, in_concat. split.
  - intros (l & Hl & Hx). exists l. rewrite !list_elem_of_In. done.
  - intros (l & Hl & Hx). exists l. rewrite <- !list_elem_of_In. done.
Qed.

Lemma np_max_upper (image : list (list Z)) (mx : Z) :
  np_max image = Ok mx ->
  forall row x, row ∈ image -> x ∈ row -> x <= mx.
Proof.
  unfold np_max. intros Hmx row x Hrow Hx.
  assert (x ∈ concat image) as Hin by (apply elem_of_concat; eauto).
  destruct (concat image) as [|y ys]; [discriminate|].
  injection Hmx as <-. destruct (foldl_max_ge ys y) as [H1 H2].
  apply elem_of_cons in Hin as [->|Hin]; [exact H1|].
  rewrite Forall_forall in H2. apply H2. exact Hin.
Qed.

Lemma np_max_defined (image : list (list Z)) (row : list Z) (x : Z) :
  row ∈ image -> x ∈ row -> exists mx, np_max image = Ok mx.
Proof.
  intros Hrow Hx. unfold np_max.
  assert (x ∈ concat image) as Hin by (apply elem_of_concat; eauto).
  destruct (concat image) as [|y ys]; [inversion Hin | eauto].
Qed.

Lemma tensor_div_unit (x mx : Z) :
  0 <= x <= mx -> 1 <= mx -> in_unit_interval (tensor_div x mx).
Proof.
  intros Hx Hmx. unfold tensor_div.
  destruct (Z.eqb_spec mx 0) as [?|_]; [lia|]. simpl.
  destruct mx as [|p|p]; try lia.
  unfold Qdiv, Qmult, Qinv, inject_Z, Qle. simpl. lia.
Qed.

Lemma spec_image_nonneg config titles :
  Forall (Forall (fun x => 0 <= x)) (spec_image config titles).
Proof.
  apply Forall_lookup. intros i row Hrow.
  apply Forall_lookup. intros j x Hx.
  rewrite (spec_image_cell _ _ _ _ _ _ Hrow Hx).
  case_bool_decide; [apply spec_count_nonneg | lia].
Qed.

(* The first row of an admissible sequence holds a one. *)
Lemma spec_image_has_one config titles :
  dense_ids config -> admissible config titles ->
  exists row, row ∈ spec_image config titles /\ 1 ∈ row.
Proof.
  intros Hdense (Hne & Hlen & Hin).
  destruct titles as [|t rest]; [done|].
  destruct (Hin t) as [id Hid]; [left|].
  pose proof (Hdense t id Hid) as Hrange.
  simpl length in Hlen.
  exists ((fun j => spec_count (label2id config) (t :: rest) 0 j)
            <$> seq 0 (size (label2id config))).
  split.
  - apply list_elem_of_lookup. exists 0%nat.
    unfold spec_image. rewrite list_lookup_fmap, lookup_seq_lt by lia.
    simpl. reflexivity.
  - apply list_elem_of_lookup. exists (Z.to_nat id).
    rewrite list_lookup_fmap, lookup_seq_lt by lia. simpl.
    rewrite spec_count_head, bool_decide_eq_true_2; [reflexivity|].
    rewrite Hid. f_equal. lia.
Qed.

(** C4.  For a vocabulary with dense ids and a non-empty title sequence
    of at most [max_seq_len] titles, all in the vocabulary, [prepare_input]
    builds a matrix of [max_seq_len] rows and [len(label2id)] columns that
    is the Image Representation of the data model: cell [(i, j)] of an
    unpadded row is the number of positions [0..i] holding label [j],
    every column is non-decreasing over the unpadded rows, every padded
    row is zero, the maximum is found, and after the division by it every
    cell is a number between 0 and 1. *)
Theorem image_representation_invariants (config : CNNConfig) (titles : list string) :
  dense_ids config -> admissible config titles ->
  exists (image_repr : list (list Z)) (mx : Z),
    build_image config titles = Ok image_repr /\
    image_repr = spec_image config titles /\
    length image_repr = Z.to_nat (max_seq_len config) /\
    Forall (fun row => length row = size (label2id config)) image_repr /\
    (forall i j row x, (i < length titles)%nat ->
       image_repr !! i = Some row -> row !! j = Some x ->
       x = spec_count (label2id config) titles i j) /\
    (forall i i' j row row' x x', (i <= i' < length titles)%nat ->
       image_repr !! i = Some row -> image_repr !! i' = Some row' ->
       row !! j = Some x -> row' !! j = Some x' -> x <= x') /\
    (forall i row, (length titles <= i)%nat ->
       image_repr !! i = Some row -> Forall (fun x => x = 0) row) /\
    np_max image_repr = Ok mx /\
    image_of_titles config titles
      = Ok [map (map (fun x => tensor_div x mx)) image_repr] /\
    Forall (Forall in_unit_interval)
           (map (map (fun x => tensor_div x mx)) image_repr).
Proof.
  intros Hdense Hadm.
  pose proof (build_image_spec config titles Hdense Hadm) as Hbuild.
  destruct (spec_image_has_one config titles Hdense Hadm) as (row1 & Hrow1 & Hone).
  destruct (np_max_defined _ _ _ Hrow1 Hone) as [mx Hmx].
  pose proof (np_max_upper _ _ Hmx) as Hupper.
  assert (1 <= mx) as Hmx1 by (apply (Hupper row1 1); assumption).
  exists (spec_image config titles), mx.
  split; [exact Hbuild|]. split; [reflexivity|].
  split; [apply spec_image_length|]. split; [apply spec_image_widths|].
  split; [|split; [|split; [|split; [exact Hmx|split]]]].
  - intros i j row x Hi Hrow Hx.
    rewrite (spec_image_cell _ _ _ _ _ _ Hrow Hx).
    rewrite bool_decide_eq_true_2 by exact Hi. reflexivity.
  - intros i i' j row row' x x' Hi Hrow Hrow' Hx Hx'.
    rewrite (spec_image_cell _ _ _ _ _ _ Hrow Hx),
            (spec_image_cell _ _ _ _ _ _ Hrow' Hx').
    rewrite !bool_decide_eq_true_2 by lia.
    apply spec_count_mono. lia.
  - intros i row Hi Hrow. apply Forall_lookup. intros j x Hx.
    rewrite (spec_image_cell _ _ _ _ _ _ Hrow Hx).
    rewrite bool_decide_eq_false_2 by lia. reflexivity.
  - unfold image_of_titles. rewrite Hbuild. simpl.
    unfold normalize_image. rewrite Hmx. reflexivity.
  - apply Forall_fmap, Forall_forall. intros row Hrow. simpl.
    apply Forall_fmap, Forall_forall. intros x Hx. simpl.
    apply tensor_div_unit; [|exact Hmx1]. split.
    + pose proof (spec_image_nonneg config titles) as Hnn.
      rewrite Forall_forall in Hnn. specialize (Hnn row Hrow).
      rewrite Forall_forall in Hnn. exact (Hnn x Hx).
    + exact (Hupper row x Hrow Hx).
Qed.

(** *** What a returning call implies, without any assumption *)

Lemma title_loop_Ok_inv l2i titles (last_repr : list Z) image_repr out :
  title_loop l2i titles last_repr image_repr = Ok out ->
  exists rows,
    out = image_repr ++ rows /\
    length rows = length titles /\
    Forall (fun r => length r = length last_repr) rows /\
    (forall t, t ∈ titles -> is_Some (l2i !! t)) /\
    (Forall (fun x => 0 <= x) last_repr -> titles <> [] ->
     exists row x, row ∈ rows /\ x ∈ row /\ 1 <= x).
Proof.
  revert last_repr image_repr out.
  induction titles as [|t rest IH]; intros last_repr image_repr out Hloop.
  - simpl in Hloop. injection Hloop as <-. exists [].
    rewrite app_nil_r. repeat split; try done.
    intros t Ht. inversion Ht.
  - simpl in Hloop. unfold dict_get in Hloop.
    destruct (l2i !! t) as [id|] eqn:Hid; [|discriminate]. simpl in Hloop.
    destruct (np_index (length last_repr) id) as [i|] eqn:Hi; [|discriminate].
    simpl in Hloop. apply np_index_Ok in Hi.
    apply IH in Hloop as (rows & -> & Hlen & Hw & Hin & _).
    exists (alter (fun x => x + 1) i last_repr :: rows).
    rewrite <- app_assoc. split; [reflexivity|].
    split; [simpl; congruence|]. split; [|split].
    + constructor; [apply length_alter|].
      eapply Forall_impl; [exact Hw|]. intros r. simpl.
      rewrite length_alter. done.
    + intros t' [->|Ht']%elem_of_cons; [eauto | apply Hin, Ht'].
    + intros Hnn _.
      destruct (lookup_lt_is_Some_2 last_repr i Hi) as [x Hx].
      exists (alter (fun x => x + 1) i last_repr), (x + 1).
      split; [left|]. split.
      * apply list_elem_of_lookup. exists i.
        rewrite list_lookup_alter_eq, Hx. reflexivity.
      * rewrite Forall_lookup in Hnn. specialize (Hnn i x Hx). simpl in Hnn. lia.
Qed.

Lemma build_image_Ok_inv config titles image_repr :
  build_image config titles = Ok image_repr ->
  admissible config titles /\
  length image_repr = Z.to_nat (max_seq_len config) /\
  Forall (fun r => length r = size (label2id config)) image_repr /\
  exists row x, row ∈ image_repr /\ x ∈ row /\ 1 <= x.
Proof.
  unfold build_image. intros H.
  apply bind_Ok in H as (rows0 & Hloop & H).
  apply bind_Ok in H as (rows & Hstack & Hpad).
  apply np_vstack_Ok in Hstack as [-> Hne].
  apply np_pad_rows_Ok in Hpad as [Hafter ->].
  apply title_loop_Ok_inv in Hloop as (rows & Heq & Hlen & Hw & Hin & Hone).
  simpl in Heq. subst rows0. rewrite length_replicate in Hw.
  assert (titles <> []) as Htne.
  { intros ->. destruct rows; [done|discriminate]. }
  split; [|split; [|split]].
  - split; [exact Htne|]. split; [lia | exact Hin].
  - rewrite length_app, length_replicate. lia.
  - apply Forall_app. split; [exact Hw|].
    apply Forall_replicate.
    destruct rows as [|r rows]; [done|]. simpl.
    rewrite length_replicate. inversion Hw; assumption.
  - destruct Hone as (row & x & Hrow & Hx & Hx1); [|exact Htne|].
    + apply Forall_replicate. reflexivity.
    + exists row, x. split; [apply elem_of_app; left; exact Hrow | done].
Qed.

Lemma normalize_image_shape image_repr t :
  normalize_image image_repr = Ok t ->
  shape3 t = (1%nat, length image_repr, width image_repr).
Proof.
  unfold normalize_image. intros H.
  apply bind_Ok in H as (mx & _ & [= <-]).
  unfold shape3. simpl. rewrite length_map.
  destruct image_repr as [|r rows]; simpl; [reflexivity|].
  rewrite length_map. reflexivity.
Qed.

Lemma uniform_width {A : Type} (image : list (list A)) (n : nat) :
  image <> [] -> Forall (fun r => length r = n) image -> width image = n.
Proof. intros Hne H. destruct image; [done|]. inversion H; assumption. Qed.

Lemma image_of_titles_Ok_inv config titles t :
  image_of_titles config titles = Ok t ->
  admissible config titles /\
  shape3 t = (1%nat, Z.to_nat (max_seq_len config), size (label2id config)).
Proof.
  unfold image_of_titles. intros H.
  apply bind_Ok in H as (image_repr & Hbuild & Hnorm).
  apply build_image_Ok_inv in Hbuild as (Hadm & Hlen & Hw & row & _ & Hrow & _).
  split; [exact Hadm|].
  rewrite (normalize_image_shape _ _ Hnorm), Hlen.
  rewrite (uniform_width image_repr (size (label2id config))); [reflexivity| |exact Hw].
  intros ->. inversion Hrow.
Qed.

Lemma image_of_titles_defined config titles :
  dense_ids config -> admissible config titles ->
  returns (image_of_titles config titles).
Proof.
  intros Hdense Hadm. unfold image_of_titles.
  rewrite (build_image_spec config titles Hdense Hadm). simpl.
  destruct (spec_image_has_one config titles Hdense Hadm) as (row & Hrow & Hone).
  destruct (np_max_defined _ _ _ Hrow Hone) as [mx Hmx].
  unfold normalize_image. rewrite Hmx. simpl. eexists. reflexivity.
Qed.

Lemma batch_loop_Ok_inv config batch_titles ts :
  batch_loop config batch_titles = Ok ts ->
  Forall (admissible config) batch_titles /\
  length ts = length batch_titles /\
  Forall (fun t => shape3 t
            = (1%nat, Z.to_nat (max_seq_len config), size (label2id config))) ts.
Proof.
  revert ts. induction batch_titles as [|titles rest IH]; intros ts H.
  - injection H as <-. done.
  - simpl in H. apply bind_Ok in H as (t & Ht & H).
    apply bind_Ok in H as (ts' & Hts' & [= <-]).
    apply image_of_titles_Ok_inv in Ht as [Hadm Hshape].
    destruct (IH ts' Hts') as (Hall & Hlen & Hshapes).
    split; [constructor; assumption|].
    split; [simpl; congruence | constructor; assumption].
Qed.

Lemma batch_loop_defined config batch_titles :
  dense_ids config -> Forall (admissible config) batch_titles ->
  returns (batch_loop config batch_titles).
Proof.
  intros Hdense. induction 1 as [|titles rest Hadm _ IH].
  - exists []. reflexivity.
  - destruct (image_of_titles_defined config titles Hdense Hadm) as [t Ht].
    destruct IH as [ts Hts]. exists (t :: ts).
    simpl. rewrite Ht. simpl. rewrite Hts. reflexivity.
Qed.

Lemma torch_stack_uniform {A : Type} (ts : list (list (list (list A)))) s :
  ts <> [] -> Forall (fun t => shape3 t = s) ts -> torch_stack ts = Ok ts.
Proof.
  intros Hne Hall. destruct ts as [|t ts]; [done|]. unfold torch_stack.
  replace (forallb _ (t :: ts)) with true; [reflexivity|].
  symmetry. apply forallb_forall. intros t' Hin.
  apply bool_decide_eq_true_2. rewrite Forall_forall in Hall.
  rewrite (Hall t') by (apply list_elem_of_In; exact Hin).
  rewrite (Hall t) by left. reflexivity.
Qed.

Lemma torch_stack_Ok {A : Type} (ts out : list (list (list (list A)))) :
  torch_stack ts = Ok out -> out = ts /\ ts <> [].
Proof.
  unfold torch_stack. destruct ts as [|t ts]; [discriminate|].
  destruct (forallb _ _); [|discriminate]. intros [= <-]. done.
Qed.

Lemma small_config_dense : dense_ids small_config.
Proof.
  assert (map_Forall (fun _ id => 0 <= id < 3) (label2id small_config)) as H.
  { apply (bool_decide_unpack _). vm_compute. exact I. }
  intros title id Hid. specialize (H title id Hid). simpl in H.
  replace (size (label2id small_config)) with 3%nat by (vm_compute; reflexivity).
  lia.
Defined.

Lemma small_titles_admissible :
  admissible small_config ["a"; "b"; "a"]%string.
Proof.
  split; [discriminate|]. split; [simpl; lia|].
  intros title Ht.
  repeat (apply elem_of_cons in Ht as [->|Ht]);
    [vm_compute; eauto .. | inversion Ht].
Defined.

Lemma image_representation_invariants_witness :
  exists image_repr mx,
    build_image small_config ["a"; "b"; "a"]%string = Ok image_repr /\
    image_repr = [[1; 0; 0]; [1; 1; 0]; [2; 1; 0]; [0; 0; 0]] /\
    np_max image_repr = Ok mx /\
    Forall (Forall in_unit_interval)
           (map (map (fun x => tensor_div x mx)) image_repr).
Proof.
  destruct (image_representation_invariants small_config ["a"; "b"; "a"]%string
              small_config_dense small_titles_admissible)
    as (image_repr & mx & Hbuild & Hspec & _ & _ & _ & _ & _ & Hmx & _ & Hunit).
  exists image_repr, mx. split; [exact Hbuild|]. split; [|split; assumption].
  rewrite Hspec. vm_compute. reflexivity.
Defined.

Lemma inadmissible_not_admissible config titles :
  inadmissible config titles -> ~ admissible config titles.
Proof.
  intros [->|[Hlong|(t & Ht & Hnone)]] (Hne & Hlen & Hin).
  - done.
  - lia.
  - destruct (Hin t Ht) as [id Hid]. congruence.
Qed.

Lemma stacked_shape {A : Type} (ts : list (list (list (list A)))) (h w : nat) :
  ts <> [] -> Forall (fun t => shape3 t = (1%nat, h, w)) ts ->
  shape4 ts = (length ts, 1%nat, h, w).
Proof.
  intros Hne Hall. destruct ts as [|t ts]; [done|].
  inversion Hall as [|? ? Ht _]; subst.
  unfold shape3 in Ht. unfold shape4. simpl.
  destruct t as [|img [|? ?]]; simpl in Ht; try (injection Ht; discriminate).
  simpl. injection Ht as -> ->. reflexivity.
Qed.

(** C10, as the code has it.  On a non-empty batch whose title sequences
    are all non-empty, at most [max_seq_len] long and made of titles of a
    vocabulary with dense ids, [prepare_input] returns an image tensor of
    shape [(batch_size, 1, max_seq_len, len(label2id))]; a batch holding
    an empty sequence, a sequence longer than [max_seq_len] or a title
    absent from the vocabulary makes it raise; and so does the batch
    without any sequence, on which [torch.stack] fails. *)
Theorem prepare_input_domain (config : CNNConfig) (b : batch) :
  (dense_ids config -> titles b <> [] ->
   Forall (admissible config) (titles b) ->
   exists out,
     prepare_input config b = Ok out /\
     shape4 (image out)
     = (length (titles b), 1%nat, Z.to_nat (max_seq_len config),
        size (label2id config))) /\
  (Exists (inadmissible config) (titles b) -> raises (prepare_input config b)) /\
  (titles b = [] -> prepare_input config b = Raise RuntimeError).
Proof.
  split; [|split].
  - intros Hdense Hne Hall.
    destruct (batch_loop_defined config (titles b) Hdense Hall) as [ts Hts].
    destruct (batch_loop_Ok_inv _ _ _ Hts) as (_ & Hlen & Hshapes).
    assert (ts <> []) as Htsne.
    { intros ->. destruct (titles b); [done|discriminate]. }
    unfold prepare_input. rewrite Hts. simpl.
    rewrite (torch_stack_uniform ts _ Htsne Hshapes). simpl.
    eexists. split; [reflexivity|]. simpl.
    rewrite (stacked_shape ts _ _ Htsne Hshapes), Hlen. reflexivity.
  - intros Hbad. apply not_returns_raises. intros out Hout.
    unfold prepare_input in Hout.
    apply bind_Ok in Hout as (ts & Hts & _).
    apply batch_loop_Ok_inv in Hts as (Hall & _).
    apply Exists_exists in Hbad as (titles & Hin & Hbad).
    rewrite Forall_forall in Hall.
    exact (inadmissible_not_admissible _ _ Hbad (Hall titles Hin)).
  - intros Hnil. unfold prepare_input. rewrite Hnil. reflexivity.
Qed.

Lemma small_batch_admissible : Forall (admissible small_config) (titles small_batch).
Proof.
  repeat constructor; try discriminate; try (simpl; lia);
    intros title Ht;
    repeat (apply elem_of_cons in Ht as [->|Ht]);
    try (vm_compute; eauto); inversion Ht.
Defined.

Lemma prepare_input_domain_witness :
  (exists out,
     prepare_input small_config small_batch = Ok out /\
     shape4 (image out) = (2%nat, 1%nat, 4%nat, 3%nat)) /\
  raises (prepare_input small_config
            {| titles := [["a"]; []; ["z"]]%string; labels := None |}).
Proof.
  destruct (prepare_input_domain small_config small_batch) as (Hok & _ & _).
  destruct (prepare_input_domain small_config
              {| titles := [["a"]; []; ["z"]]%string; labels := None |})
    as (_ & Hbad & _).
  split.
  - destruct (Hok small_config_dense) as (out & Hout & Hshape);
      [discriminate | exact small_batch_admissible |].
    exists out. split; [exact Hout|]. rewrite Hshape. vm_compute. reflexivity.
  - apply Hbad. simpl. right. left. left. reflexivity.
Defined.

(** C10 as stated fails: every sequence of the empty batch meets the
    three conditions, and [prepare_input] raises on it. *)
Lemma empty_batch_raises :
  dense_ids small_config /\
  Forall (admissible small_config) (titles empty_batch) /\
  prepare_input small_config empty_batch = Raise RuntimeError.
Proof.
  split; [exact small_config_dense|]. split; [constructor | reflexivity].
Qed.

(** *** No division fault, and no zero image either *)

Lemma title_loop_exn l2i titles (last_repr : list Z) image_repr e :
  title_loop l2i titles last_repr image_repr = Raise e ->
  e = KeyError \/ e = IndexError.
Proof.
  revert last_repr image_repr.
  induction titles as [|t rest IH]; intros last_repr image_repr H;
    [discriminate|].
  simpl in H. unfold dict_get in H.
  destruct (l2i !! t) as [id|]; [|injection H as <-; left; reflexivity].
  simpl in H. unfold np_index in H.
  repeat case_bool_decide; simpl in H;
    try (eapply IH; exact H).
  injection H as <-. right. reflexivity.
Qed.

Lemma np_vstack_exn rows e : np_vstack rows = Raise e -> e = ValueError.
Proof.
  unfold np_vstack. destruct rows; [congruence|].
  destruct (forallb _ _); congruence.
Qed.

Lemma np_pad_rows_exn image after e :
  np_pad_rows image after = Raise e -> e = ValueError.
Proof. unfold np_pad_rows. destruct (_ <? _); congruence. Qed.

Lemma np_max_exn image e : np_max image = Raise e -> e = ValueError.
Proof. unfold np_max. destruct (concat _); congruence. Qed.

Lemma image_of_titles_exn config titles e :
  image_of_titles config titles = Raise e ->
  e = KeyError \/ e = IndexError \/ e = ValueError.
Proof.
  unfold image_of_titles, build_image, normalize_image.
  destruct (title_loop _ _ _ _) as [rows|e1] eqn:Hloop; simpl;
    [|intros [= <-]; apply title_loop_exn in Hloop; tauto].
  destruct (np_vstack rows) as [stacked|e2] eqn:Hstack; simpl;
    [|intros [= <-]; apply np_vstack_exn in Hstack; tauto].
  destruct (np_pad_rows _ _) as [padded|e3] eqn:Hpad; simpl;
    [|intros [= <-]; apply np_pad_rows_exn in Hpad; tauto].
  destruct (np_max padded) as [mx|e4] eqn:Hmx; simpl;
    [discriminate|intros [= <-]; apply np_max_exn in Hmx; tauto].
Qed.

Lemma batch_loop_exn config batch_titles e :
  batch_loop config batch_titles = Raise e ->
  e = KeyError \/ e = IndexError \/ e = ValueError.
Proof.
  induction batch_titles as [|titles rest IH]; [discriminate|].
  simpl. destruct (image_of_titles config titles) as [t|e'] eqn:Ht; simpl.
  - destruct (batch_loop config rest); simpl; [discriminate|].
    intros H. injection H as H. subst. apply IH. reflexivity.
  - intros [= <-]. eapply image_of_titles_exn. exact Ht.
Qed.

Lemma all_zero_no_positive image_repr row x :
  all_zero image_repr -> row ∈ image_repr -> x ∈ row -> x = 0.
Proof.
  intros Hz Hrow Hx. unfold all_zero in Hz. rewrite Forall_forall in Hz.
  specialize (Hz row Hrow). rewrite Forall_forall in Hz. exact (Hz x Hx).
Qed.

Lemma np_max_all_zero image_repr :
  all_zero image_repr -> concat image_repr <> [] -> np_max image_repr = Ok 0.
Proof.
  intros Hz Hne. unfold np_max.
  assert (Forall (fun x => x = 0) (concat image_repr)) as Hall.
  { apply Forall_forall. intros x (row & Hrow & Hx)%elem_of_concat.
    exact (all_zero_no_positive _ _ _ Hz Hrow Hx). }
  destruct (concat image_repr) as [|y ys]; [done|].
  inversion Hall as [|? ? -> Hys]; subst. f_equal.
  clear -Hys. induction Hys as [|y ys -> _ IH]; simpl; [reflexivity | exact IH].
Qed.

Lemma torch_stack_exn {A : Type} (ts : list (list (list (list A)))) e :
  torch_stack ts = Raise e -> e = RuntimeError.
Proof.
  unfold torch_stack. destruct ts; [congruence|].
  destruct (forallb _ _); congruence.
Qed.

(** C2, as the code has it.  [prepare_input] never raises a division
    fault, and it has no policy for a zero maximum either: an image that
    reaches the division has a maximum of at least one; a title sequence
    whose Image Representation is all zeros raises before the division;
    and the division step applied to an all-zero image would give NaN in
    every cell, not zero. *)
Theorem no_division_fault_no_zero_image (config : CNNConfig) :
  (forall b, prepare_input config b <> Raise ZeroDivisionError) /\
  (forall titles image_repr, build_image config titles = Ok image_repr ->
     ~ all_zero image_repr /\
     exists mx, np_max image_repr = Ok mx /\ 1 <= mx) /\
  (dense_ids config -> forall titles,
     all_zero (spec_image config titles) ->
     raises (image_of_titles config titles)) /\
  (forall image_repr, all_zero image_repr -> concat image_repr <> [] ->
     normalize_image image_repr
     = Ok [map (map (fun _ => FNaN)) image_repr]).
Proof.
  split; [|split; [|split]].
  - intros b H. unfold prepare_input in H.
    destruct (batch_loop config (titles b)) as [ts|e] eqn:Hts; simpl in H.
    + destruct (torch_stack ts) as [stacked|e] eqn:Hstack; simpl in H;
        [discriminate|]. injection H as ->.
      apply torch_stack_exn in Hstack. discriminate.
    + injection H as ->. apply batch_loop_exn in Hts.
      destruct Hts as [?|[?|?]]; discriminate.
  - intros titles image_repr Hbuild.
    apply build_image_Ok_inv in Hbuild as (_ & _ & _ & row & x & Hrow & Hx & Hx1).
    split.
    + intros Hz. pose proof (all_zero_no_positive _ _ _ Hz Hrow Hx). lia.
    + destruct (np_max_defined _ _ _ Hrow Hx) as [mx Hmx].
      exists mx. split; [exact Hmx|].
      pose proof (np_max_upper _ _ Hmx row x Hrow Hx). lia.
  - intros Hdense titles Hz. apply not_returns_raises. intros t Ht.
    apply image_of_titles_Ok_inv in Ht as [Hadm _].
    destruct (spec_image_has_one config titles Hdense Hadm) as (row & Hrow & Hone).
    pose proof (all_zero_no_positive _ _ _ Hz Hrow Hone). lia.
  - intros image_repr Hz Hne. unfold normalize_image.
    rewrite (np_max_all_zero _ Hz Hne). simpl. do 2 f_equal.
    apply map_ext_in. intros row Hrow. apply map_ext_in. intros x Hx.
    rewrite (all_zero_no_positive image_repr row x Hz) by
      (apply list_elem_of_In; assumption).
    reflexivity.
Qed.

(** C2 as stated fails: the empty sequence and a sequence of one absent
    title have an all-zero Image Representation, and [prepare_input]
    returns no tensor for them; the division step on a zero image gives
    NaN. *)
Lemma zero_image_is_not_returned :
  all_zero (spec_image small_config []) /\
  image_of_titles small_config [] = Raise ValueError /\
  all_zero (spec_image small_config ["z"]%string) /\
  image_of_titles small_config ["z"]%string = Raise KeyError /\
  normalize_image [[0; 0]; [0; 0]] = Ok [[[FNaN; FNaN]; [FNaN; FNaN]]].
Proof.
  split; [|split; [|split; [|split]]]; try reflexivity;
    vm_compute; repeat constructor.
Qed.

End CNNFacts.

Module T5Facts.

Import T5 PyFacts.

(** *** Padding *)

Lemma length_le_max_len (sequences : list (list Z)) (s : list Z) :
  s ∈ sequences -> (length s <= max_len sequences)%nat.
Proof.
  intros Hs. unfold max_len. apply max_list_elem_of_le.
  apply list_elem_of_fmap. exists s. done.
Qed.

Lemma max_len_attained (sequences : list (list Z)) :
  sequences <> [] -> exists s, s ∈ sequences /\ length s = max_len sequences.
Proof.
  intros Hne. unfold max_len.
  assert (length <$> sequences <> []) as Hne'
    by (destruct sequences; [done | discriminate]).
  apply max_list_elem_of in Hne'.
  apply list_elem_of_fmap in Hne' as (s & Heq & Hs). exists s. done.
Qed.

Lemma pad_sequence_spec (sequences : list (list Z)) (fill : Z) :
  sequences <> [] ->
  exists rows, pad_sequence sequences fill = Ok rows /\
               padded_to fill sequences rows.
Proof.
  intros Hne. unfold pad_sequence.
  destruct sequences as [|s0 rest] eqn:Heq; [done|]. rewrite <- Heq.
  eexists. split; [reflexivity|].
  fold (max_len sequences). split; [apply length_fmap|].
  intros i s Hs. rewrite list_lookup_fmap, Hs. simpl.
  pose proof (length_le_max_len sequences s) as Hle.
  specialize (Hle ltac:(apply list_elem_of_lookup; eauto)).
  eexists. split; [reflexivity|]. split; [|split].
  - rewrite length_app, length_replicate. lia.
  - intros p x Hp. apply lookup_app_l_Some. exact Hp.
  - intros p Hp. rewrite lookup_app_r by lia.
    apply lookup_replicate_2. lia.
Qed.

Lemma mask_pad_spec (pad : Z) (sequences rows : list (list Z)) :
  padded_to pad sequences rows ->
  masked_labels pad sequences (mask_pad pad rows).
Proof.
  intros [Hlen Hrows]. unfold mask_pad. split; [rewrite length_map; exact Hlen|].
  intros i s Hs. destruct (Hrows i s Hs) as (row & Hrow & Hrl & Hkeep & Hfill).
  change (map ?f rows) with (f <$> rows).
  rewrite list_lookup_fmap, Hrow. simpl.
  eexists. split; [reflexivity|]. split; [rewrite length_map; exact Hrl|].
  split.
  - intros p x Hp. change (map ?f row) with (f <$> row).
    rewrite list_lookup_fmap, (Hkeep p x Hp). reflexivity.
  - intros p Hp. change (map ?f row) with (f <$> row).
    rewrite list_lookup_fmap, (Hfill p Hp). simpl.
    rewrite bool_decide_eq_true_2 by reflexivity. reflexivity.
Qed.

Lemma mask_pad_no_pad (pad : Z) (rows : list (list Z)) (row : list Z) :
  pad <> ignore_index -> row ∈ mask_pad pad rows -> pad ∉ row.
Proof.
  intros Hne Hrow Hin. unfold mask_pad in Hrow.
  apply list_elem_of_In, in_map_iff in Hrow as (row0 & <- & _).
  apply list_elem_of_In, in_map_iff in Hin as (x & Hx & _).
  case_bool_decide; congruence.
Qed.

(** C6.  On a batch whose fields are not empty, [prepare_input] returns;
    [input_ids] and [attention_mask] are their sequences followed by the
    pad token id up to the longest length occurring in that field of the
    batch, a length that one of its sequences has; the label rows have
    the longest length of the label sequences, every position holding the
    pad token id is rewritten to -100, so every position past a label
    sequence's own length is -100, and no pad token id is left. *)
Theorem prepare_input_pads_to_batch_maximum
    (pad_token_id : Z) (training : bool) (b : batch) :
  batch_input_ids b <> [] ->
  batch_attention_mask b <> [] ->
  batch_labels b <> Some [] ->
  (training = false -> is_Some (batch_immediate_next_title b)) ->
  exists out,
    prepare_input pad_token_id training b = Ok out /\
    padded_to pad_token_id (batch_input_ids b) (input_ids out) /\
    padded_to pad_token_id (batch_attention_mask b) (attention_mask out) /\
    (exists s, s ∈ batch_input_ids b /\ length s = max_len (batch_input_ids b)) /\
    (exists s, s ∈ batch_attention_mask b
               /\ length s = max_len (batch_attention_mask b)) /\
    match batch_labels b with
    | None => labels out = None
    | Some l =>
        exists lm, labels out = Some lm /\
          masked_labels pad_token_id l lm /\
          (exists s, s ∈ l /\ length s = max_len l) /\
          (pad_token_id <> ignore_index ->
           forall row, row ∈ lm -> pad_token_id ∉ row)
    end.
Proof.
  intros Hids Hmask Hlab Hnext.
  destruct (pad_sequence_spec (batch_input_ids b) pad_token_id Hids)
    as (ids & Hids_eq & Hids_pad).
  destruct (pad_sequence_spec (batch_attention_mask b) pad_token_id Hmask)
    as (mask & Hmask_eq & Hmask_pad).
  unfold prepare_input. rewrite Hids_eq, Hmask_eq. simpl.
  assert (exists nt, (if training then Ok None
                      else match batch_immediate_next_title b with
                           | Some t => Ok (Some t)
                           | None => Raise KeyError
                           end) = Ok nt) as [nt Hnt].
  { destruct training; [eauto|].
    destruct (Hnext eq_refl) as [t ->]. eauto. }
  destruct (batch_labels b) as [l|] eqn:Hl.
  - assert (l <> []) as Hlne by congruence.
    destruct (pad_sequence_spec l pad_token_id Hlne) as (lm & Hlm_eq & Hlm_pad).
    rewrite Hlm_eq. simpl. rewrite Hnt. simpl.
    eexists. split; [reflexivity|]. simpl.
    split; [exact Hids_pad|]. split; [exact Hmask_pad|].
    split; [apply max_len_attained, Hids|].
    split; [apply max_len_attained, Hmask|].
    eexists. split; [reflexivity|].
    split; [apply mask_pad_spec, Hlm_pad|].
    split; [apply max_len_attained, Hlne|].
    intros Hne row Hrow. exact (mask_pad_no_pad _ _ _ Hne Hrow).
  - simpl. rewrite Hnt. simpl. eexists. split; [reflexivity|]. simpl.
    split; [exact Hids_pad|]. split; [exact Hmask_pad|].
    split; [apply max_len_attained, Hids|].
    split; [apply max_len_attained, Hmask | reflexivity].
Qed.

Lemma prepare_input_pads_to_batch_maximum_witness :
  exists out,
    prepare_input 0 false ragged_batch = Ok out /\
    input_ids out = [[5; 6; 7]; [8; 0; 0]] /\
    labels out = Some [[9; -100; 3]; [4; 1; -100]] /\
    padded_to 0 (batch_input_ids ragged_batch) (input_ids out).
Proof.
  destruct (prepare_input_pads_to_batch_maximum 0 false ragged_batch)
    as (out & Hout & Hids & _); try discriminate.
  - intros _. simpl. eauto.
  - exists out. vm_compute in Hout. injection Hout as <-.
    split; [reflexivity|]. split; [reflexivity|]. split; [reflexivity|].
    exact Hids.
Defined.

(** *** Mapping candidates to labels and counting matches *)

Lemma argmax_from_spec (pre rest : list Q) (best_i : nat) (best : Q) :
  pre !! best_i = Some best ->
  (forall i x, pre !! i = Some x -> (x <= best)%Q) ->
  is_argmax (pre ++ rest) (argmax_from best_i best (length pre) rest) /\
  (argmax_from best_i best (length pre) rest < length (pre ++ rest))%nat.
Proof.
  revert pre best_i best.
  induction rest as [|x rest IH]; intros pre best_i best Hbest Hmax.
  - simpl. rewrite app_nil_r. split.
    + exists best. split; [exact Hbest | exact Hmax].
    + apply lookup_lt_Some in Hbest. exact Hbest.
  - simpl. replace (pre ++ x :: rest) with ((pre ++ [x]) ++ rest)
      by (rewrite <- app_assoc; reflexivity).
    replace (S (length pre)) with (length (pre ++ [x]))
      by (rewrite length_app; simpl; lia).
    destruct (Qle_bool x best) eqn:Hcmp.
    + apply Qle_bool_iff in Hcmp. apply IH.
      * apply lookup_app_l_Some. exact Hbest.
      * intros i y Hy. apply lookup_app_Some in Hy as [Hy|[_ Hy]].
        -- exact (Hmax i y Hy).
        -- apply list_lookup_singleton_Some in Hy as [_ <-]. exact Hcmp.
    + assert (best < x)%Q as Hlt.
      { apply Qnot_le_lt. intros Hle. apply Qle_bool_iff in Hle. congruence. }
      rewrite length_app. simpl. replace (length pre + 1)%nat with (length (pre ++ [x]))
        by (rewrite length_app; reflexivity).
      replace (length (pre ++ [x]) - 1)%nat with (length pre) at 1
        by (rewrite length_app; simpl; lia).
      apply IH.
      * rewrite lookup_app_r by lia. rewrite Nat.sub_diag. reflexivity.
      * intros i y Hy. apply lookup_app_Some in Hy as [Hy|[_ Hy]].
        -- apply Qle_trans with best; [exact (Hmax i y Hy)|].
           apply Qlt_le_weak. exact Hlt.
        -- apply list_lookup_singleton_Some in Hy as [_ <-]. apply Qle_refl.
Qed.

Lemma argmax_spec (row : list Q) :
  row <> [] ->
  exists j, argmax row = Ok j /\ is_argmax row j /\ (j < length row)%nat.
Proof.
  intros Hne. destruct row as [|x rest]; [done|].
  exists (argmax_from 0 x 1 rest). split; [reflexivity|].
  apply (argmax_from_spec [x] rest 0 x); [reflexivity|].
  intros i y Hy. apply list_lookup_singleton_Some in Hy as [_ <-].
  apply Qle_refl.
Qed.




Lemma py_sum_from (l : list Z) (acc : Z) : foldl Z.add acc l = acc + py_sum l.
Proof.
  unfold py_sum. revert acc. induction l as [|x l IH]; intros acc; simpl; [lia|].
  rewrite IH, (IH (0 + x)). lia.
Qed.







(** *** The configuration round trip *)

Lemma eval_tasks_to_json {Task Params : Type}
    (to_json : Task -> string * Params)
    (from_eval : string -> Params -> result Task)
    (equiv : Task -> Task -> Prop) (tasks : list Task) :
  (forall t, exists t', from_eval (to_json t).1 (to_json t).2 = Ok t' /\ equiv t t') ->
  exists tasks',
    eval_tasks from_eval (task_to_json to_json <$> tasks) = Ok tasks' /\
    Forall2 equiv tasks tasks'.
Proof.
  intros Hrt. induction tasks as [|t tasks IH].
  - exists []. split; [reflexivity | constructor].
  - destruct IH as (tasks' & Htasks' & Hall).
    destruct (Hrt t) as (t' & Ht' & Hequiv).
    exists (t' :: tasks'). rewrite fmap_cons.
    change (eval_tasks from_eval (task_to_json to_json t :: (task_to_json to_json <$> tasks)))
      with (eval_task from_eval (task_to_json to_json t) ≫= fun x =>
            eval_tasks from_eval (task_to_json to_json <$> tasks) ≫= fun xs =>
            Ok (x :: xs)).
    rewrite Htasks'. unfold task_to_json at 1. simpl. rewrite Ht'.
    split; [reflexivity | constructor; assumption].
Qed.

(** C7.  Provided [Task.from_eval] rebuilds from [Task.to_json] a task
    equivalent to the one serialized, [to_dict] turns every training task
    and the test task into a (class, parameters) pair and the labels into
    a plain list, and [from_dict] of that dictionary returns a
    configuration with equivalent training tasks in the same order, an
    equivalent test task and the same labels in the same order. *)
Theorem config_round_trip {Task Params Prim : Type}
    (to_json : Task -> string * Params)
    (from_eval : string -> Params -> result Task)
    (DirectNTP : Task) (equiv : Task -> Task -> Prop)
    (config : @NTPT5Config Task Prim) :
  (forall t, exists t', from_eval (to_json t).1 (to_json t).2 = Ok t' /\ equiv t t') ->
  d_training_tasks (to_dict to_json config)
    = Some ((fun t => TaskJson (to_json t).1 (to_json t).2) <$> training_tasks config) /\
  d_test_task (to_dict to_json config)
    = Some (TaskJson (to_json (test_task config)).1 (to_json (test_task config)).2) /\
  d_all_unique_labels (to_dict to_json config)
    = Some (PyList (label_items (all_unique_labels config))) /\
  exists config',
    from_dict from_eval DirectNTP (to_dict to_json config) no_kwargs = Ok config' /\
    Forall2 equiv (training_tasks config) (training_tasks config') /\
    equiv (test_task config) (test_task config') /\
    label_items (all_unique_labels config') = label_items (all_unique_labels config) /\
    device config' = device config /\
    t5_fields config' = t5_fields config.
Proof.
  intros Hrt. split; [reflexivity|]. split; [reflexivity|]. split; [reflexivity|].
  destruct (eval_tasks_to_json to_json from_eval equiv (training_tasks config) Hrt)
    as (tasks' & Htasks' & Hall).
  destruct (Hrt (test_task config)) as (t' & Ht' & Hequiv).
  unfold from_dict, to_dict. simpl. rewrite Htasks'. simpl.
  unfold task_to_json. simpl. rewrite Ht'. simpl.
  eexists. split; [reflexivity|]. simpl. auto.
Qed.

Lemma TaskClass_round_trip (t : TaskClass) :
  exists t', TaskClass_from_eval (TaskClass_to_json t).1 (TaskClass_to_json t).2
             = Ok t' /\ t = t'.
Proof. exists t. destruct t; split; reflexivity. Defined.

Lemma config_round_trip_witness :
  exists config',
    from_dict TaskClass_from_eval DirectNTP
      (to_dict TaskClass_to_json example_config) no_kwargs = Ok config' /\
    training_tasks config' = training_tasks example_config /\
    test_task config' = test_task example_config /\
    all_unique_labels config' = PyList ["a"; "b"]%string.
Proof.
  destruct (config_round_trip TaskClass_to_json TaskClass_from_eval DirectNTP eq
              example_config TaskClass_round_trip)
    as (_ & _ & _ & config' & Hfrom & Htasks & Htest & _).
  exists config'. split; [exact Hfrom|].
  vm_compute in Hfrom. injection Hfrom as <-. repeat split; reflexivity.
Defined.

(** *** The task of a call to [tokenize] *)

Lemma random_choice_lookup {Rng A : Type} (randbelow : Rng -> nat -> nat * Rng)
    (seq : list A) (g : Rng) :
  (forall g n, (0 < n)%nat -> ((randbelow g n).1 < n)%nat) ->
  seq <> [] ->
  exists x, seq !! (randbelow g (length seq)).1 = Some x /\
    random_choice randbelow seq g = Ok (x, (randbelow g (length seq)).2).
Proof.
  intros Hlt Hne. unfold random_choice.
  destruct seq as [|a seq'] eqn:Heq; [done|]. rewrite <- Heq.
  assert (0 < length seq)%nat as Hpos by (rewrite Heq; simpl; lia).
  specialize (Hlt g (length seq) Hpos).
  destruct (randbelow g (length seq)) as [i g'] eqn:Hdraw. simpl in *.
  destruct (lookup_lt_is_Some_2 seq i Hlt) as [x Hx].
  exists x. rewrite Hx. done.
Qed.

(** C8.  In training mode [tokenize] renders the training task found at
    the index that this call draws below the number of training tasks, so
    each position of the list is selected by exactly one of the equally
    likely draws, and successive calls follow their own successive draws;
    outside training mode every call renders the configured test task and
    consumes no draw. *)
Theorem tokenize_task_selection {Task Prim Rng Mapper Encoding : Type}
    (randbelow : Rng -> nat -> nat * Rng)
    (render : Task -> list string -> string -> option Mapper -> list string
              -> result (string * string))
    (tokenizer : string -> string -> Encoding)
    (self : @NTPT5 Task Prim Mapper) (s : sample) (g : Rng) :
  (forall g n, (0 < n)%nat -> ((randbelow g n).1 < n)%nat) ->
  (training self = true -> training_tasks (config self) <> [] ->
   let n := length (training_tasks (config self)) in
   (exists task,
      training_tasks (config self) !! (randbelow g n).1 = Some task /\
      select_task randbelow self g = Ok (task, (randbelow g n).2) /\
      tokenize randbelow render tokenizer self s g
      = (render task (input_title_sequence s) (immediate_next_title s)
                (cluster_label_mapper self) (input_keywords_sequence s)
         ≫= fun '(input_text, target_text) =>
              Ok (tokenizer input_text target_text, immediate_next_title s,
                  (randbelow g n).2))) /\
   (forall calls, exists chosen g',
      select_tasks randbelow self calls g = Ok (chosen, g') /\
      Forall2 (fun d task => training_tasks (config self) !! d = Some task)
              (draws randbelow n calls g) chosen)) /\
  (training self = false ->
   select_task randbelow self g = Ok (test_task (config self), g) /\
   tokenize randbelow render tokenizer self s g
   = (render (test_task (config self)) (input_title_sequence s)
             (immediate_next_title s) (cluster_label_mapper self)
             (input_keywords_sequence s)
      ≫= fun '(input_text, target_text) =>
           Ok (tokenizer input_text target_text, immediate_next_title s, g)) /\
   forall calls,
     select_tasks randbelow self calls g
     = Ok (replicate calls (test_task (config self)), g)).
Proof.
  intros Hlt. split.
  - intros Htrain Hne n. split.
    + destruct (random_choice_lookup randbelow (training_tasks (config self)) g
                  Hlt Hne) as (task & Htask & Hchoice).
      exists task. split; [exact Htask|].
      assert (select_task randbelow self g = Ok (task, (randbelow g n).2)) as Hsel.
      { unfold select_task. rewrite Htrain. exact Hchoice. }
      split; [exact Hsel|]. unfold tokenize. rewrite Hsel. reflexivity.
    + intros calls. revert g. induction calls as [|calls IH]; intros g.
      * exists [], g. split; [reflexivity | constructor].
      * destruct (random_choice_lookup randbelow (training_tasks (config self)) g
                    Hlt Hne) as (task & Htask & Hchoice).
        destruct (IH (randbelow g n).2) as (chosen & g' & Hrest & Hall).
        exists (task :: chosen), g'. simpl.
        unfold select_task at 1. rewrite Htrain, Hchoice. simpl.
        fold n. rewrite Hrest. simpl.
        split; [reflexivity | constructor; assumption].
  - intros Heval.
    assert (forall g, select_task randbelow self g = Ok (test_task (config self), g))
      as Hsel by (intros g0; unfold select_task; rewrite Heval; reflexivity).
    split; [apply Hsel|]. split.
    + unfold tokenize. rewrite Hsel. reflexivity.
    + intros calls. induction calls as [|calls IH]; [reflexivity|].
      simpl. rewrite Hsel. simpl. rewrite IH. reflexivity.
Qed.

Lemma replay_randbelow_lt (g : list nat) (n : nat) :
  (0 < n)%nat -> ((replay_randbelow g n).1 < n)%nat.
Proof.
  intros Hn. destruct g as [|r g]; simpl; [exact Hn|].
  apply Nat.mod_upper_bound. lia.
Defined.

Lemma tokenize_task_selection_witness :
  select_task replay_randbelow (example_model true) [7; 2; 4]%nat
    = Ok (DirectNTPSideInfo, [2; 4]%nat) /\
  select_tasks replay_randbelow (example_model true) 3 [7; 2; 4]%nat
    = Ok ([DirectNTPSideInfo; BoolNTP ["a"; "b"]%string; DirectNTPSideInfo], []) /\
  select_task replay_randbelow (example_model false) [7; 2; 4]%nat
    = Ok (DirectNTPSideInfo, [7; 2; 4]%nat).
Proof.
  pose (s := {| input_title_sequence := ["a"]%string;
                immediate_next_title := "b"%string;
                input_keywords_sequence := [] |}).
  destruct (tokenize_task_selection replay_randbelow
              (fun (_ : TaskClass) _ _ (_ : option unit) _ => Ok (""%string, ""%string))
              (fun a b => (a, b)) (example_model true) s [7; 2; 4]%nat
              replay_randbelow_lt) as [Htrain _].
  destruct (tokenize_task_selection replay_randbelow
              (fun (_ : TaskClass) _ _ (_ : option unit) _ => Ok (""%string, ""%string))
              (fun a b => (a, b)) (example_model false) s [7; 2; 4]%nat
              replay_randbelow_lt) as [_ Heval].
  destruct Htrain as [(task & Htask & Hsel & _) Hcalls];
    [reflexivity | discriminate |].
  destruct (Hcalls 3%nat) as (chosen & g' & Hmany & _).
  destruct (Heval eq_refl) as (Htest & _).
  split; [|split].
  - vm_compute in Htask. injection Htask as <-. exact Hsel.
  - rewrite Hmany. vm_compute in Hmany. symmetry. exact Hmany.
  - exact Htest.
Defined.

End T5Facts.

Module SentEncFacts.

Import SentEnc PyFacts.

Lemma n_batches_covers (num_rows batch_size : nat) :
  (0 < batch_size)%nat -> (num_rows <= n_batches num_rows batch_size * batch_size)%nat.
Proof.
  intros Hpos. unfold n_batches.
  pose proof (Nat.div_mod_eq (num_rows + batch_size - 1) batch_size) as Hdm.
  pose proof (Nat.mod_upper_bound (num_rows + batch_size - 1) batch_size) as Hub.
  specialize (Hub ltac:(lia)). nia.
Qed.

Lemma n_batches_positive (num_rows batch_size : nat) :
  (0 < batch_size)%nat -> (0 < num_rows)%nat ->
  (0 < n_batches num_rows batch_size)%nat.
Proof.
  intros Hpos Hrows. pose proof (n_batches_covers num_rows batch_size Hpos).
  destruct (n_batches num_rows batch_size); lia.
Qed.

Lemma n_batches_tight (num_rows batch_size : nat) :
  (0 < batch_size)%nat -> (0 < num_rows)%nat ->
  ((n_batches num_rows batch_size - 1) * batch_size < num_rows)%nat.
Proof.
  intros Hpos Hrows. unfold n_batches.
  pose proof (Nat.div_mod_eq (num_rows + batch_size - 1) batch_size) as Hdm.
  pose proof (Nat.mod_upper_bound (num_rows + batch_size - 1) batch_size) as Hub.
  specialize (Hub ltac:(lia)). nia.
Qed.

Lemma concat_chunks {A : Type} (l : list A) (batch_size m : nat) :
  concat ((fun i => take batch_size (drop (i * batch_size) l)) <$> seq 0 m)
  = take (m * batch_size) l.
Proof.
  induction m as [|m IH]; [simpl; rewrite take_0; reflexivity|].
  rewrite seq_S, fmap_app, concat_app, IH. simpl. rewrite app_nil_r.
  rewrite take_take_drop. f_equal. lia.
Qed.

Lemma dataset_iter_concat (batch_size : nat) (sentences : list string) :
  (0 < batch_size)%nat -> concat (dataset_iter batch_size sentences) = sentences.
Proof.
  intros Hpos. unfold dataset_iter. rewrite concat_chunks.
  apply take_ge. apply n_batches_covers. exact Hpos.
Qed.

Lemma dataset_iter_lookup (batch_size : nat) (sentences : list string)
    (i : nat) (chunk : list string) :
  (0 < batch_size)%nat -> sentences <> [] ->
  dataset_iter batch_size sentences !! i = Some chunk ->
  chunk = take batch_size (drop (i * batch_size) sentences) /\
  chunk <> [] /\ (length chunk <= batch_size)%nat.
Proof.
  intros Hpos Hne. unfold dataset_iter. rewrite list_lookup_fmap.
  destruct (seq 0 _ !! i) as [k|] eqn:Hk; [|discriminate].
  apply lookup_seq in Hk as [-> Hk]. simpl. intros [= <-].
  split; [reflexivity|].
  assert (0 < length sentences)%nat as Hlen
    by (destruct sentences; [done | simpl; lia]).
  pose proof (n_batches_tight (length sentences) batch_size Hpos Hlen) as Htight.
  split.
  - intros Hnil. apply (f_equal length) in Hnil.
    rewrite length_take, length_drop in Hnil. simpl in Hnil. nia.
  - rewrite length_take. lia.
Qed.

Lemma concat_fmap_map {A B : Type} (f : A -> B) (ls : list (list A)) :
  concat ((fun l : list A => f <$> l) <$> ls) = f <$> concat ls.
Proof.
  induction ls as [|l ls IH]; [reflexivity|].
  rewrite fmap_cons. simpl concat. rewrite IH, fmap_app. reflexivity.
Qed.

Lemma concat_concat_fmap {A B : Type} (f : A -> list B) (ls : list (list A)) :
  concat ((fun l : list A => concat (f <$> l)) <$> ls) = concat (f <$> concat ls).
Proof.
  induction ls as [|l ls IH]; [reflexivity|].
  rewrite fmap_cons. simpl concat. rewrite IH, fmap_app, concat_app. reflexivity.
Qed.

Lemma dataset_iter_one_chunk (sentences : list string) :
  sentences <> [] -> dataset_iter (length sentences) sentences = [sentences].
Proof.
  intros Hne. unfold dataset_iter.
  assert (0 < length sentences)%nat as Hlen
    by (destruct sentences; [done | simpl; lia]).
  assert (n_batches (length sentences) (length sentences) = 1%nat) as ->.
  { unfold n_batches. symmetry.
    apply (Nat.div_unique _ _ 1 (length sentences - 1)); lia. }
  simpl. rewrite drop_0, take_ge by lia. reflexivity.
Qed.

Lemma dataset_iter_nil (batch_size : nat) :
  (0 < batch_size)%nat -> dataset_iter batch_size [] = [].
Proof.
  intros Hpos. unfold dataset_iter, n_batches. simpl.
  rewrite Nat.div_small by lia. reflexivity.
Qed.

Lemma dataset_iter_nonempty (batch_size : nat) (sentences : list string) :
  (0 < batch_size)%nat -> sentences <> [] -> dataset_iter batch_size sentences <> [].
Proof.
  intros Hpos Hne Hnil.
  pose proof (dataset_iter_concat batch_size sentences Hpos) as Hconcat.
  rewrite Hnil in Hconcat. simpl in Hconcat. congruence.
Qed.

Lemma encode_chunks_tensors {Row : Type}
    (encode_batch : list string -> result (encoded Row))
    (rows : list string -> list Row) (chunks : list (list string)) :
  (forall batch_sentences,
     encode_batch batch_sentences = Ok (TorchTensor (rows batch_sentences))) ->
  encode_chunks encode_batch chunks
  = Ok ((fun chunk => TorchTensor (rows chunk)) <$> chunks).
Proof.
  intros Henc. induction chunks as [|chunk chunks IH]; [reflexivity|].
  simpl. rewrite Henc. simpl. rewrite IH. reflexivity.
Qed.

Lemma torch_vstack_tensors {Row : Type} (rows : list string -> list Row)
    (chunks : list (list string)) :
  chunks <> [] ->
  torch_vstack ((fun chunk => TorchTensor (rows chunk)) <$> chunks)
  = Ok (concat (rows <$> chunks)).
Proof.
  intros Hne. unfold torch_vstack.
  assert (forallb is_tensor ((fun chunk => TorchTensor (rows chunk)) <$> chunks) = true)
    as ->.
  { induction chunks as [|c cs IH]; [reflexivity|]. simpl.
    destruct cs; [reflexivity|]. apply IH. discriminate. }
  destruct chunks as [|c cs]; [done|].
  rewrite <- list_fmap_compose. reflexivity.
Qed.

Lemma call_tensors {Row : Type}
    (encode_batch : list string -> result (encoded Row))
    (rows : list string -> list Row) (batch_size : nat) (sentences : list string) :
  (forall batch_sentences,
     encode_batch batch_sentences = Ok (TorchTensor (rows batch_sentences))) ->
  (0 < batch_size)%nat -> sentences <> [] ->
  call encode_batch batch_size sentences
  = Ok (concat (rows <$> dataset_iter batch_size sentences)).
Proof.
  intros Henc Hpos Hne. unfold call.
  destruct (Nat.eqb_spec batch_size 0) as [?|_]; [lia|].
  rewrite (encode_chunks_tensors encode_batch rows) by exact Henc. simpl.
  apply torch_vstack_tensors. apply dataset_iter_nonempty; assumption.
Qed.

(** C9, as the code has it.  For an [encode_batch] that returns
    tensors: for a positive batch size and at least one sentence,
    [__call__] splits the list into consecutive chunks of at most the
    batch size whose concatenation is the list, and returns the
    encodings of the chunks stacked in order.  The result is the stack
    of the encodings of the sentences taken alone, for every batch size,
    exactly when [encode_batch] encodes every chunk as the stack of the
    encodings of its sentences taken alone; for an [encode_batch] that
    encodes sentence by sentence, row [i] is the encoding of sentence
    [i].  Without sentences [__call__] raises [RuntimeError], and with
    a batch size of zero [ZeroDivisionError]. *)
Theorem call_stacks_chunks_in_order {Row : Type}
    (encode_batch : list string -> result (encoded Row))
    (rows : list string -> list Row) :
  (forall batch_sentences,
     encode_batch batch_sentences = Ok (TorchTensor (rows batch_sentences))) ->
  (forall batch_size sentences, (0 < batch_size)%nat -> sentences <> [] ->
     concat (dataset_iter batch_size sentences) = sentences /\
     (forall i chunk, dataset_iter batch_size sentences !! i = Some chunk ->
        chunk = take batch_size (drop (i * batch_size) sentences) /\
        chunk <> [] /\ (length chunk <= batch_size)%nat) /\
     call encode_batch batch_size sentences
     = Ok (concat (rows <$> dataset_iter batch_size sentences))) /\
  ((forall batch_sentences, batch_sentences <> [] ->
      rows batch_sentences = concat ((fun s => rows [s]) <$> batch_sentences))
   <->
   (forall batch_size sentences, (0 < batch_size)%nat -> sentences <> [] ->
      call encode_batch batch_size sentences
      = Ok (concat ((fun s => rows [s]) <$> sentences)))) /\
  (forall encode : string -> Row,
     (forall batch_sentences, rows batch_sentences = encode <$> batch_sentences) ->
     forall batch_size sentences, (0 < batch_size)%nat -> sentences <> [] ->
       call encode_batch batch_size sentences = Ok (encode <$> sentences)) /\
  (forall batch_size, (0 < batch_size)%nat ->
     call encode_batch batch_size [] = Raise RuntimeError) /\
  (forall sentences, call encode_batch 0 sentences = Raise ZeroDivisionError).
Proof.
  intros Henc.
  assert (forall f : list string -> list Row,
            (forall chunk, chunk <> [] -> rows chunk = f chunk) ->
            forall batch_size sentences, (0 < batch_size)%nat -> sentences <> [] ->
              call encode_batch batch_size sentences
              = Ok (concat (f <$> dataset_iter batch_size sentences))) as Hcall.
  { intros f Hf batch_size sentences Hpos Hne.
    rewrite (call_tensors encode_batch rows) by assumption.
    do 2 f_equal. apply list_fmap_ext. intros i chunk Hchunk. apply Hf.
    apply (dataset_iter_lookup batch_size sentences i chunk Hpos Hne Hchunk). }
  split; [|split; [|split; [|split]]].
  - intros batch_size sentences Hpos Hne.
    split; [apply dataset_iter_concat; exact Hpos|].
    split; [intros i chunk; apply dataset_iter_lookup; assumption|].
    apply call_tensors; assumption.
  - split.
    + intros Hrows batch_size sentences Hpos Hne.
      rewrite (Hcall _ Hrows) by assumption.
      rewrite concat_concat_fmap, dataset_iter_concat by exact Hpos. reflexivity.
    + intros Hsame batch_sentences Hne.
      assert (0 < length batch_sentences)%nat as Hlen
        by (destruct batch_sentences; [done | simpl; lia]).
      specialize (Hsame (length batch_sentences) batch_sentences Hlen Hne).
      rewrite (call_tensors encode_batch rows) in Hsame by assumption.
      rewrite dataset_iter_one_chunk in Hsame by exact Hne.
      simpl in Hsame. rewrite app_nil_r in Hsame. congruence.
  - intros encode Hrows batch_size sentences Hpos Hne.
    rewrite (Hcall (fun chunk => encode <$> chunk)) by (auto using Hrows).
    rewrite concat_fmap_map, dataset_iter_concat by exact Hpos. reflexivity.
  - intros batch_size Hpos. unfold call.
    destruct (Nat.eqb_spec batch_size 0) as [?|_]; [lia|].
    rewrite dataset_iter_nil by exact Hpos. reflexivity.
  - intros sentences. reflexivity.
Qed.

Lemma call_stacks_chunks_in_order_witness :
  call length_encoder 2 ["a"; "bcd"; "ef"; "g"; "hijk"]%string
    = Ok [1; 3; 2; 1; 4]%nat /\
  call length_encoder 3 ["a"; "bcd"; "ef"; "g"; "hijk"]%string
    = Ok [1; 3; 2; 1; 4]%nat.
Proof.
  destruct (call_stacks_chunks_in_order length_encoder
              (fun l => String.length <$> l) ltac:(reflexivity))
    as (_ & _ & Hrows & _).
  split; apply (Hrows String.length); (reflexivity || lia || discriminate).
Defined.

(** C9 as stated fails: not every list of sentences and not every chunk
    size give an embedding matrix, whatever the encoder. *)
Lemma call_raises_on_no_sentence :
  call length_encoder 2 [] = Raise RuntimeError /\
  call length_encoder 0 ["a"; "bcd"]%string = Raise ZeroDivisionError.
Proof. split; reflexivity. Qed.

End SentEncFacts.

Module CNNExtra.

Import CNN CNNEval PyFacts CNNFacts T5Facts.

(** *** What [CNNModel.__init__] itself checks *)

(** X22.  [CNNModel.__init__] compares no lengths of its own: whatever
    the constructor of [CNNEncoder] does, it raises exactly when that
    constructor raises, and otherwise it returns a model whose
    [output_dim] is the one of the configuration cut down to the stages
    that [zip] pairs, the rest of the longer list being ignored. *)
Theorem CNNModel_init_follows_zip {Encoder : Type}
    (CNNEncoder_new : cnn_encoder_params -> result Encoder)
    (config : CNNConfig) :
  (forall e, CNNModel_init CNNEncoder_new config = Raise e
             <-> CNNEncoder_new (encoder_params config) = Raise e) /\
  (forall encoder, CNNEncoder_new (encoder_params config) = Ok encoder ->
     CNNModel_init CNNEncoder_new config
     = Ok {| cnn_encoder := encoder;
             output_dim := compute_output_dim (truncated config) |}).
Proof.
  unfold CNNModel_init. split.
  - intros e. destruct (CNNEncoder_new (encoder_params config)); simpl;
      split; intros H; congruence.
  - intros encoder ->. simpl. rewrite compute_output_dim_truncated. reflexivity.
Qed.

(** *** The output dimension in closed form *)

Lemma default_last_cons {A : Type} (c x : A) (l : list A) :
  default c (last (x :: l)) = default x (last l).
Proof.
  destruct l as [|y l]; [reflexivity|]. rewrite last_cons_cons.
  destruct (last (y :: l)) eqn:H; [reflexivity|].
  apply last_None in H. discriminate.
Qed.

Lemma stage_loop_halving (stages : list (Z * Z)) (h w c : Z) :
  stage_loop stages (h, w, c)
  = (h `div` 2 ^ Z.of_nat (length stages),
     w `div` 2 ^ Z.of_nat (length stages),
     default c (last (snd <$> stages))).
Proof.
  revert h w c. induction stages as [|[c_in c_out] stages IH]; intros h w c.
  - simpl. rewrite !Z.div_1_r. reflexivity.
  - simpl stage_loop. rewrite IH, !pooled_half.
    rewrite length_cons, Nat2Z.inj_succ, Z.pow_succ_r by lia.
    rewrite !Z.div_div by lia.
    rewrite fmap_cons. simpl snd. rewrite default_last_cons. reflexivity.
Qed.

Lemma zip_length_min {A B : Type} (l : list A) (k : list B) :
  length (zip l k) = (length l `min` length k)%nat.
Proof.
  revert k. induction l as [|a l IH]; intros [|b k]; simpl; try reflexivity.
  rewrite IH. reflexivity.
Qed.

(** X1.  The expected output dimension is
    [(max_seq_len // 2^n) * (len(label2id) // 2^n) * c], where [n] is the
    number of stages that [zip] pairs and [c] the output channel count of
    the last of them, or 1 without stages; neither the input channel
    counts nor the kernel sizes enter it. *)
Theorem output_dim_closed_form (config : CNNConfig) :
  let stages := zip (input_dims (encoder_params config))
                    (output_dims (encoder_params config)) in
  let n := Z.of_nat (length (input_dims (encoder_params config))
                     `min` length (output_dims (encoder_params config)))%nat in
  compute_output_dim config
  = (max_seq_len config `div` 2 ^ n) * (n_labels config `div` 2 ^ n)
    * default 1 (last (snd <$> stages)).
Proof.
  intros stages n. unfold compute_output_dim, expected_shape.
  fold stages. rewrite stage_loop_halving.
  unfold stages at 1 2. rewrite zip_length_min. reflexivity.
Qed.

(** X2.  When the sequence length, if not negative, or the number of
    labels is below [2^n] for the [n] paired stages, the expected output
    dimension is 0, and the linear head is built on no feature. *)
Theorem output_dim_collapses (config : CNNConfig) :
  let n := Z.of_nat (length (input_dims (encoder_params config))
                     `min` length (output_dims (encoder_params config)))%nat in
  0 <= max_seq_len config < 2 ^ n \/ n_labels config < 2 ^ n ->
  compute_output_dim config = 0.
Proof.
  intros n H. unfold compute_output_dim, expected_shape.
  rewrite stage_loop_halving, zip_length_min. fold n.
  assert (0 <= n_labels config) as Hl by (unfold n_labels, dict_len; lia).
  destruct H as [H|H].
  - rewrite (Z.div_small (max_seq_len config)) by lia. lia.
  - rewrite (Z.div_small (n_labels config)) by lia. lia.
Qed.

Lemma output_dim_collapses_witness :
  compute_output_dim (main_config ["a"; "b"; "c"]%string) = 0.
Proof.
  apply output_dim_collapses. right. vm_compute. reflexivity.
Defined.

(** *** The vocabulary that [cnn_model_main] builds *)

Lemma enumerate_labels_snoc (labels : list string) (x : string) :
  enumerate_labels (labels ++ [x])
  = <[x := Z.of_nat (length labels)]> (enumerate_labels labels).
Proof.
  unfold enumerate_labels. rewrite imap_app, reverse_app. simpl.
  rewrite Nat.add_0_r. reflexivity.
Qed.

Lemma enumerate_ids_snoc (labels : list string) (x : string) :
  enumerate_ids (labels ++ [x])
  = <[Z.of_nat (length labels) := x]> (enumerate_ids labels).
Proof.
  unfold enumerate_ids. rewrite imap_app, reverse_app. simpl.
  rewrite Nat.add_0_r. reflexivity.
Qed.

Lemma enumerate_labels_lookup (labels : list string) (x : string) (id : Z) :
  enumerate_labels labels !! x = Some id ->
  0 <= id < Z.of_nat (length labels) /\ labels !! Z.to_nat id = Some x.
Proof.
  revert id. induction labels as [|y labels IH] using rev_ind; intros id.
  - unfold enumerate_labels. simpl. rewrite lookup_empty. discriminate.
  - rewrite enumerate_labels_snoc, length_app. simpl.
    destruct (decide (y = x)) as [->|Hne].
    + rewrite lookup_insert_eq. intros [= <-]. split; [lia|].
      rewrite Nat2Z.id. rewrite lookup_app_r by lia.
      rewrite Nat.sub_diag. reflexivity.
    + rewrite lookup_insert_ne by exact Hne. intros Hid.
      destruct (IH id Hid) as [Hrange Hx]. split; [lia|].
      apply lookup_app_l_Some. exact Hx.
Qed.

Lemma enumerate_labels_dom (labels : list string) (x : string) :
  is_Some (enumerate_labels labels !! x) <-> x ∈ labels.
Proof.
  induction labels as [|y labels IH] using rev_ind.
  - unfold enumerate_labels. simpl. rewrite lookup_empty. split.
    + intros [? ?]. discriminate.
    + intros H. inversion H.
  - rewrite enumerate_labels_snoc, elem_of_app, list_elem_of_singleton.
    destruct (decide (y = x)) as [->|Hne].
    + rewrite lookup_insert_eq. split; [auto | eauto].
    + rewrite lookup_insert_ne by exact Hne. rewrite IH. split; [auto|].
      intros [?|?]; [assumption | congruence].
Qed.

Lemma enumerate_labels_size (labels : list string) :
  (size (enumerate_labels labels) <= length labels)%nat /\
  (size (enumerate_labels labels) = length labels <-> NoDup labels).
Proof.
  induction labels as [|y labels [IHle IHeq]] using rev_ind.
  - unfold enumerate_labels. simpl. rewrite map_size_empty.
    split; [lia|]. split; [constructor | reflexivity].
  - rewrite enumerate_labels_snoc, length_app. simpl.
    rewrite NoDup_app, <- IHeq.
    destruct (enumerate_labels labels !! y) as [id|] eqn:Hy.
    + assert (y ∈ labels) as Hin by (apply enumerate_labels_dom; eauto).
      rewrite map_size_insert_Some by eauto. split; [lia|]. split; [lia|].
      intros (_ & Hdisj & _). exfalso. apply (Hdisj y Hin). left.
    + assert (y ∉ labels) as Hnin.
      { intros Hin. apply enumerate_labels_dom in Hin as [? ?]. congruence. }
      rewrite map_size_insert_None by exact Hy. split; [lia|]. split.
      * intros Hsz. split; [lia|]. split; [|apply NoDup_singleton].
        intros z Hz [->|Hz']%elem_of_cons; [contradiction | inversion Hz'].
      * intros (Hsz & _ & _). lia.
Qed.

(** X3.  The [label2id] that [cnn_model_main] builds by enumeration has
    dense ids, every id indexing a cell of a row of [len(label2id)] cells,
    exactly when the list of labels has no duplicate: with a duplicate the
    later index wins and the last label's id is past the rows. *)
Theorem enumerate_vocabulary_dense (labels : list string)
    (params : cnn_encoder_params) (msl : Z) :
  dense_ids {| encoder_params := params; max_seq_len := msl;
               label2id := enumerate_labels labels |}
  <-> NoDup labels.
Proof.
  unfold dense_ids. simpl.
  destruct (enumerate_labels_size labels) as [Hle Heq]. split.
  - intros Hdense. apply Heq.
    destruct labels as [|y labels _] using rev_ind.
    + unfold enumerate_labels. simpl. rewrite map_size_empty. reflexivity.
    + specialize (Hdense y (Z.of_nat (length labels))).
      rewrite enumerate_labels_snoc in *. rewrite lookup_insert_eq in Hdense.
      specialize (Hdense eq_refl). rewrite length_app in *. simpl in *. lia.
  - intros Hnd title id Hid. apply Heq in Hnd. rewrite Hnd.
    apply enumerate_labels_lookup in Hid. tauto.
Qed.

Lemma enumerate_ids_lookup (labels : list string) (id : Z) (x : string) :
  enumerate_ids labels !! id = Some x
  <-> 0 <= id /\ labels !! Z.to_nat id = Some x.
Proof.
  revert id. induction labels as [|y labels IH] using rev_ind; intros id.
  - unfold enumerate_ids. simpl. rewrite lookup_empty. split; [discriminate|].
    intros [_ H]. discriminate.
  - rewrite enumerate_ids_snoc.
    destruct (decide (Z.of_nat (length labels) = id)) as [<-|Hne].
    + rewrite lookup_insert_eq, Nat2Z.id.
      rewrite lookup_app_r by lia. rewrite Nat.sub_diag. simpl.
      split; [intros [= ->]; split; [lia | reflexivity] | intros [_ H]; exact H].
    + rewrite lookup_insert_ne by exact Hne. rewrite IH. split.
      * intros [Hid Hx]. split; [exact Hid|]. apply lookup_app_l_Some. exact Hx.
      * intros [Hid Hx]. split; [exact Hid|].
        apply lookup_app_Some in Hx as [Hx|[Hge Hx]]; [exact Hx|].
        apply list_lookup_singleton_Some in Hx as [Hx _]. lia.
Qed.

Lemma id_of_label_back (labels : list string) (x : string) (id : Z) :
  enumerate_labels labels !! x = Some id -> enumerate_ids labels !! id = Some x.
Proof.
  intros Hid. apply enumerate_labels_lookup in Hid as [Hrange Hx].
  apply enumerate_ids_lookup. split; [lia | exact Hx].
Qed.

(** X4.  For the two dictionaries of [cnn_model_main], [id2label] of
    the id that [label2id] gives to a label is that label; the other way
    round, [label2id] of the label at an id is that id for every id
    exactly when the list of labels has no duplicate. *)
Theorem vocabulary_round_trip (labels : list string) :
  (forall x id, enumerate_labels labels !! x = Some id ->
                enumerate_ids labels !! id = Some x) /\
  (NoDup labels <->
   forall id x, enumerate_ids labels !! id = Some x ->
                enumerate_labels labels !! x = Some id).
Proof.
  split; [apply id_of_label_back|].
  - split.
    + intros Hnd id x Hx. apply enumerate_ids_lookup in Hx as [Hid Hx].
      assert (x ∈ labels) as Hin by (apply list_elem_of_lookup; eauto).
      apply enumerate_labels_dom in Hin as [id' Hid'].
      rewrite Hid'. f_equal.
      apply enumerate_labels_lookup in Hid' as [Hrange Hx'].
      pose proof (NoDup_lookup _ _ _ _ Hnd Hx Hx'). lia.
    + intros Hback. apply NoDup_alt. intros i j x Hi Hj.
      assert (enumerate_labels labels !! x = Some (Z.of_nat i)) as H1.
      { apply Hback, enumerate_ids_lookup. rewrite Nat2Z.id. split; [lia | exact Hi]. }
      assert (enumerate_labels labels !! x = Some (Z.of_nat j)) as H2.
      { apply Hback, enumerate_ids_lookup. rewrite Nat2Z.id. split; [lia | exact Hj]. }
      rewrite H1 in H2. injection H2. lia.
Qed.

(** *** Tokenization, flattening and evaluation *)

Lemma ids_to_labels_of_tokens (labels : list string) (config : CNNConfig)
    (samples : list sample) (toks : list tokenized) :
  label2id config = enumerate_labels labels ->
  Forall2 (fun s tok => tokenize config s = Ok tok) samples toks ->
  ids_to_labels (enumerate_ids labels) (concat (tok_labels <$> toks))
  = Ok (immediate_next_title <$> samples).
Proof.
  intros Hvocab. induction 1 as [|s tok samples toks Htok _ IH]; [reflexivity|].
  unfold tokenize in Htok. apply bind_Ok in Htok as (id & Hid & [= <-]).
  apply dict_get_Ok in Hid. rewrite Hvocab in Hid.
  rewrite !fmap_cons. simpl.
  rewrite (id_of_label_back labels _ _ Hid). simpl.
  rewrite IH. reflexivity.
Qed.

Lemma argmax_rows_spec (output : list (list Q)) (width : nat) :
  (0 < width)%nat -> Forall (fun row => length row = width) output ->
  exists indices,
    T5.argmax_rows output = Ok indices /\
    Forall2 (fun row j => T5.is_argmax row j /\ (j < width)%nat) output indices.
Proof.
  intros Hpos. induction 1 as [|row rest Hrow _ IH].
  - exists []. split; [reflexivity | constructor].
  - destruct IH as (indices & Hind & Hall).
    destruct (argmax_spec row) as (j & Hj & Hmax & Hlt).
    { intros ->. simpl in Hrow. lia. }
    exists (j :: indices). simpl. rewrite Hj. simpl. rewrite Hind.
    split; [reflexivity|]. constructor; [|exact Hall].
    split; [exact Hmax | lia].
Qed.

Lemma ids_to_labels_of_indices (labels : list string) (indices : list nat) :
  Forall (fun j => (j < length labels)%nat) indices ->
  exists predictions,
    ids_to_labels (enumerate_ids labels) (Z.of_nat <$> indices) = Ok predictions /\
    Forall2 (fun j p => labels !! j = Some p) indices predictions.
Proof.
  induction 1 as [|j indices Hj _ IH].
  - exists []. split; [reflexivity | constructor].
  - destruct IH as (predictions & Hpred & Hall).
    destruct (lookup_lt_is_Some_2 labels j Hj) as [p Hp].
    exists (p :: predictions). rewrite fmap_cons. simpl.
    assert (enumerate_ids labels !! Z.of_nat j = Some p) as ->.
    { apply enumerate_ids_lookup. rewrite Nat2Z.id. split; [lia | exact Hp]. }
    simpl. rewrite Hpred. split; [reflexivity | constructor; assumption].
Qed.

(** X5.  With the dictionaries of [cnn_model_main], a non-empty
    vocabulary and logits of one column per label, [valid_step] on the
    flattened labels of tokenized samples returns, as ground truths, the
    samples' next titles in order, and as predictions the labels at the
    maximal logit of each row, provided the loss function returns. *)
Theorem valid_step_returns_next_titles {Loss : Type}
    (cross_entropy : list (list Q) -> list Z -> result Loss)
    (labels : list string) (config : CNNConfig)
    (samples : list sample) (toks : list tokenized)
    (output : list (list Q)) (loss : Loss) :
  label2id config = enumerate_labels labels ->
  labels <> [] ->
  Forall (fun row => length row = length labels) output ->
  Forall2 (fun s tok => tokenize config s = Ok tok) samples toks ->
  cross_entropy output (concat (tok_labels <$> toks)) = Ok loss ->
  exists predictions,
    valid_step cross_entropy (enumerate_ids labels) output
      (concat (tok_labels <$> toks))
    = Ok (predictions, immediate_next_title <$> samples, loss) /\
    Forall2 (fun row p => exists j, T5.is_argmax row j /\ labels !! j = Some p)
            output predictions.
Proof.
  intros Hvocab Hne Hrows Htoks Hloss.
  assert (0 < length labels)%nat as Hpos by (destruct labels; [done | simpl; lia]).
  destruct (argmax_rows_spec output (length labels) Hpos Hrows)
    as (indices & Hind & Hall).
  destruct (ids_to_labels_of_indices labels indices) as (predictions & Hpred & Hall').
  { clear -Hall. induction Hall as [|? ? ? ? [_ ?] _ IH]; constructor; assumption. }
  exists predictions. split.
  - unfold valid_step. rewrite Hind. simpl. rewrite Hloss. simpl.
    rewrite Hpred. simpl.
    rewrite (ids_to_labels_of_tokens labels config samples toks Hvocab Htoks).
    reflexivity.
  - clear -Hall Hall'. revert predictions Hall'.
    induction Hall as [|row j output indices [Hmax _] _ IH];
      intros predictions Hall'; inversion Hall'; subst; constructor; eauto.
Qed.

Lemma valid_step_returns_next_titles_witness :
  exists predictions,
    valid_step (fun _ _ => Ok tt) (enumerate_ids ["a"; "b"; "c"]%string)
      [[1 # 10; 7 # 10; 2 # 10]; [3 # 10; 3 # 10; 1 # 10]]%Q [2; 0]
    = Ok (predictions, ["c"; "a"]%string, tt) /\
    predictions = ["b"; "a"]%string.
Proof.
  destruct (valid_step_returns_next_titles (fun _ _ => Ok tt)
              ["a"; "b"; "c"]%string small_config
              [{| input_title_sequence := ["a"]%string; immediate_next_title := "c"%string |};
               {| input_title_sequence := ["b"; "c"]%string; immediate_next_title := "a"%string |}]
              [{| tok_labels := [2]; tok_titles := ["a"]%string |};
               {| tok_labels := [0]; tok_titles := ["b"; "c"]%string |}]
              [[1 # 10; 7 # 10; 2 # 10]; [3 # 10; 3 # 10; 1 # 10]]%Q tt)
    as (predictions & Hstep & _).
  - reflexivity.
  - discriminate.
  - repeat constructor.
  - repeat constructor.
  - reflexivity.
  - exists predictions. split; [exact Hstep|].
    vm_compute in Hstep. congruence.
Defined.

(** *** Which exception a title sequence raises *)

Lemma title_loop_absent l2i titles (last_repr : list Z) image_repr :
  (forall t id, l2i !! t = Some id -> 0 <= id < Z.of_nat (length last_repr)) ->
  (exists t, t ∈ titles /\ l2i !! t = None) ->
  title_loop l2i titles last_repr image_repr = Raise KeyError.
Proof.
  intros Hdense. revert last_repr image_repr Hdense.
  induction titles as [|t rest IH]; intros last_repr image_repr Hdense Habs.
  - destruct Habs as (t & Ht & _). inversion Ht.
  - simpl. unfold dict_get.
    destruct (l2i !! t) as [id|] eqn:Hid; [|reflexivity]. simpl.
    rewrite np_index_in_range by (eapply Hdense; exact Hid). simpl.
    apply IH.
    + intros t' id' Hid'. rewrite length_alter. eapply Hdense. exact Hid'.
    + destruct Habs as (t' & [->|Ht']%elem_of_cons & Hnone);
        [congruence | eauto].
Qed.

(** X6.  With dense ids, the image of a title sequence is returned when
    the sequence is non-empty, at most [max_seq_len] long and made of
    known titles; a title absent from the vocabulary raises [KeyError];
    an empty or too long sequence of known titles raises [ValueError]. *)
Theorem image_of_titles_outcomes (config : CNNConfig) (titles : list string) :
  dense_ids config ->
  (admissible config titles -> returns (image_of_titles config titles)) /\
  ((exists t, t ∈ titles /\ label2id config !! t = None) ->
   image_of_titles config titles = Raise KeyError) /\
  ((forall t, t ∈ titles -> is_Some (label2id config !! t)) ->
   titles = [] \/ max_seq_len config < Z.of_nat (length titles) ->
   image_of_titles config titles = Raise ValueError).
Proof.
  intros Hdense. split; [|split].
  - apply image_of_titles_defined. exact Hdense.
  - intros Habs. unfold image_of_titles, build_image.
    rewrite title_loop_absent; [reflexivity | | exact Habs].
    intros t id Hid. rewrite length_replicate. exact (Hdense t id Hid).
  - intros Hpresent Hbad.
    destruct (image_of_titles config titles) as [t|e] eqn:Hres.
    + apply image_of_titles_Ok_inv in Hres as [(Hne & Hlen & _) _].
      destruct Hbad; [contradiction | lia].
    + f_equal. unfold image_of_titles, build_image in Hres.
      rewrite (title_loop_counts (label2id config) titles) in Hres.
      * simpl in Hres.
        destruct (np_vstack _) as [stacked|e1] eqn:Hs; simpl in Hres;
          [|apply np_vstack_exn in Hs; congruence].
        destruct (np_pad_rows _ _) as [padded|e2] eqn:Hp; simpl in Hres;
          [|apply np_pad_rows_exn in Hp; congruence].
        unfold normalize_image in Hres.
        destruct (np_max padded) as [mx|e3] eqn:Hm; simpl in Hres;
          [discriminate|]. apply np_max_exn in Hm. congruence.
      * intros t Ht. destruct (Hpresent t Ht) as [id Hid]. exists id.
        split; [exact Hid|]. rewrite length_replicate. exact (Hdense t id Hid).
Qed.

Lemma image_of_titles_outcomes_witness :
  returns (image_of_titles small_config ["a"; "b"; "a"]%string) /\
  image_of_titles small_config ["a"; "z"]%string = Raise KeyError /\
  image_of_titles small_config ["a"; "b"; "c"; "a"; "b"]%string = Raise ValueError.
Proof.
  destruct (image_of_titles_outcomes small_config ["a"; "b"; "a"]%string
              small_config_dense) as (Hok & _ & _).
  destruct (image_of_titles_outcomes small_config ["a"; "z"]%string
              small_config_dense) as (_ & Hkey & _).
  destruct (image_of_titles_outcomes small_config ["a"; "b"; "c"; "a"; "b"]%string
              small_config_dense) as (_ & _ & Hval).
  split; [|split].
  - apply Hok. exact small_titles_admissible.
  - apply Hkey. exists "z"%string. split; [|reflexivity].
    apply elem_of_cons. right. apply elem_of_cons. left. reflexivity.
  - apply Hval.
    + intros t Ht. repeat (apply elem_of_cons in Ht as [->|Ht]);
        try (vm_compute; eauto); inversion Ht.
    + right. simpl. lia.
Defined.

(** *** Every title adds one to its row *)

Lemma row_sum_alter (row : list Z) (k : nat) :
  (k < length row)%nat ->
  row_sum (alter (fun x => x + 1) k row) = row_sum row + 1.
Proof.
  revert k. induction row as [|x row IH]; intros k Hk; simpl in Hk; [lia|].
  destruct k as [|k]; simpl.
  - unfold row_sum. simpl. lia.
  - change (row_sum (x :: alter (fun x => x + 1) k row) = row_sum (x :: row) + 1).
    unfold row_sum in *. simpl. rewrite IH by lia. lia.
Qed.

Lemma counts_from_row_sum l2i titles (last_repr : list Z) (i : nat) (row : list Z) :
  (forall t, t ∈ titles ->
     exists id, l2i !! t = Some id /\ 0 <= id < Z.of_nat (length last_repr)) ->
  counts_from l2i titles last_repr !! i = Some row ->
  row_sum row = row_sum last_repr + Z.of_nat i + 1.
Proof.
  revert last_repr i. induction titles as [|t rest IH]; intros last_repr i Hin Hrow.
  - unfold counts_from in Hrow. simpl in Hrow. discriminate.
  - destruct (Hin t) as (id & Hid & Hrange); [left|].
    rewrite (counts_from_cons l2i t rest last_repr id Hid Hrange) in Hrow.
    destruct i as [|i]; simpl in Hrow.
    + injection Hrow as <-. rewrite row_sum_alter by lia. lia.
    + apply IH in Hrow.
      * rewrite Hrow, row_sum_alter by lia. lia.
      * intros t' Ht'. rewrite length_alter. apply Hin. right. exact Ht'.
Qed.

Lemma row_sum_zeros (n : nat) : row_sum (replicate n 0) = 0.
Proof. induction n as [|n IH]; [reflexivity|]. unfold row_sum in *. simpl. exact IH. Qed.

Lemma spec_image_unpadded (config : CNNConfig) (titles : list string) (i : nat) :
  (i < length titles)%nat ->
  Z.of_nat (length titles) <= max_seq_len config ->
  spec_image config titles !! i
  = counts_from (label2id config) titles
      (replicate (size (label2id config)) 0) !! i.
Proof.
  intros Hi Hlen. rewrite counts_from_zero. unfold spec_image.
  rewrite !list_lookup_fmap, !lookup_seq_lt by lia. simpl.
  rewrite bool_decide_eq_true_2 by exact Hi. reflexivity.
Qed.

(** X7.  In the integer image of an admissible sequence, row [i] sums
    to [i + 1] while [i] is a position of the sequence, every title
    adding one to one cell, and to 0 in the padding. *)
Theorem image_row_sums (config : CNNConfig) (titles : list string) :
  dense_ids config -> admissible config titles ->
  exists image_repr,
    build_image config titles = Ok image_repr /\
    forall i row, image_repr !! i = Some row ->
      row_sum row = if bool_decide (i < length titles)%nat
                    then Z.of_nat i + 1 else 0.
Proof.
  intros Hdense Hadm. exists (spec_image config titles).
  split; [apply build_image_spec; assumption|].
  intros i row Hrow. case_bool_decide as Hi.
  - destruct Hadm as (Hne & Hlen & Hin).
    rewrite spec_image_unpadded in Hrow by assumption.
    apply counts_from_row_sum in Hrow.
    + rewrite Hrow, row_sum_zeros. lia.
    + apply admissible_in_range; [exact Hdense | done].
  - apply spec_image_lookup in Hrow as [_ ->].
    rewrite bool_decide_eq_false_2 by exact Hi. apply row_sum_zeros.
Qed.

Lemma image_row_sums_witness :
  exists image_repr,
    build_image small_config ["a"; "b"; "a"]%string = Ok image_repr /\
    row_sum <$> image_repr = [1; 2; 3; 0].
Proof.
  destruct (image_row_sums small_config ["a"; "b"; "a"]%string
              small_config_dense small_titles_admissible)
    as (image_repr & Hbuild & _).
  exists image_repr. split; [exact Hbuild|].
  vm_compute in Hbuild. injection Hbuild as <-. reflexivity.
Defined.

(** *** A row depends on the titles read so far only *)

Lemma spec_count_prefix l2i (titles more : list string) (i j : nat) :
  (i < length titles)%nat ->
  spec_count l2i (titles ++ more) i j = spec_count l2i titles i j.
Proof.
  intros Hi. unfold spec_count. rewrite take_app_le by lia. reflexivity.
Qed.

(** X8.  Extending a title sequence leaves the rows it already has
    unchanged in the integer image: row [i] depends on the titles at
    positions [0..i] only. *)
Theorem image_rows_are_causal (config : CNNConfig) (titles more : list string) :
  dense_ids config ->
  admissible config titles -> admissible config (titles ++ more) ->
  exists image_repr image_repr',
    build_image config titles = Ok image_repr /\
    build_image config (titles ++ more) = Ok image_repr' /\
    forall i, (i < length titles)%nat -> image_repr' !! i = image_repr !! i.
Proof.
  intros Hdense Hadm Hadm'.
  exists (spec_image config titles), (spec_image config (titles ++ more)).
  split; [apply build_image_spec; assumption|].
  split; [apply build_image_spec; assumption|].
  intros i Hi. unfold spec_image. rewrite !list_lookup_fmap.
  destruct (seq 0 (Z.to_nat (max_seq_len config)) !! i) as [k|] eqn:Hk;
    [|reflexivity].
  apply lookup_seq in Hk as [-> _]. simpl.
  rewrite !bool_decide_eq_true_2 by (rewrite ?length_app; lia).
  f_equal. apply list_fmap_ext. intros _ j _.
  apply spec_count_prefix. exact Hi.
Qed.

Lemma image_rows_are_causal_witness :
  exists image_repr image_repr',
    build_image small_config ["a"; "b"]%string = Ok image_repr /\
    build_image small_config (["a"; "b"]%string ++ ["a"]%string) = Ok image_repr' /\
    take 2 image_repr' = take 2 image_repr.
Proof.
  destruct (image_rows_are_causal small_config ["a"; "b"]%string ["a"]%string
              small_config_dense) as (image_repr & image_repr' & H1 & H2 & _).
  - split; [discriminate|]. split; [simpl; lia|].
    intros t Ht. repeat (apply elem_of_cons in Ht as [->|Ht]);
      try (vm_compute; eauto); inversion Ht.
  - exact small_titles_admissible.
  - exists image_repr, image_repr'. split; [exact H1|]. split; [exact H2|].
    vm_compute in H1, H2. injection H1 as <-. injection H2 as <-. reflexivity.
Defined.

(** *** The normalized image reaches one *)

Lemma foldl_max_attained (xs : list Z) (x : Z) :
  foldl Z.max x xs = x \/ foldl Z.max x xs ∈ xs.
Proof.
  revert x. induction xs as [|y xs IH]; intros x; simpl; [left; reflexivity|].
  destruct (IH (Z.max x y)) as [H|H].
  - rewrite H. destruct (Z.max_spec x y) as [[_ ->]|[_ ->]];
      [right; left | left; reflexivity].
  - right. right. exact H.
Qed.

Lemma np_max_attained (image : list (list Z)) (mx : Z) :
  np_max image = Ok mx -> exists row, row ∈ image /\ mx ∈ row.
Proof.
  unfold np_max. destruct (concat image) as [|y ys] eqn:Hc; [discriminate|].
  intros [= <-]. apply elem_of_concat. rewrite Hc.
  destruct (foldl_max_attained ys y) as [->|H]; [left | right; exact H].
Qed.

(** X9.  The image returned for an admissible sequence holds a cell
    equal to one: the maximum that divides the image is one of its
    cells. *)
Theorem normalized_image_reaches_one (config : CNNConfig) (titles : list string) :
  dense_ids config -> admissible config titles ->
  exists image,
    image_of_titles config titles = Ok [image] /\
    exists row q, row ∈ image /\ FNum q ∈ row /\ (q == 1)%Q.
Proof.
  intros Hdense Hadm.
  pose proof (build_image_spec config titles Hdense Hadm) as Hbuild.
  destruct (spec_image_has_one config titles Hdense Hadm) as (row1 & Hrow1 & Hone).
  destruct (np_max_defined _ _ _ Hrow1 Hone) as [mx Hmx].
  pose proof (np_max_upper _ _ Hmx row1 1 Hrow1 Hone) as Hmx1.
  destruct (np_max_attained _ _ Hmx) as (row & Hrow & Hin).
  eexists. split.
  - unfold image_of_titles. rewrite Hbuild. simpl.
    unfold normalize_image. rewrite Hmx. reflexivity.
  - exists (map (fun x => tensor_div x mx) row), (inject_Z mx / inject_Z mx)%Q.
    split; [|split].
    + apply list_elem_of_In, in_map, list_elem_of_In, Hrow.
    + apply list_elem_of_In, in_map_iff. exists mx.
      split; [|apply list_elem_of_In, Hin].
      unfold tensor_div. destruct (Z.eqb_spec mx 0); [lia | reflexivity].
    + apply Qmult_inv_r. unfold Qeq, inject_Z. simpl. lia.
Qed.

Lemma normalized_image_reaches_one_witness :
  exists image,
    image_of_titles small_config ["a"; "b"; "a"]%string = Ok [image] /\
    exists row q, row ∈ image /\ FNum q ∈ row /\ (q == 1)%Q.
Proof.
  exact (normalized_image_reaches_one small_config ["a"; "b"; "a"]%string
           small_config_dense small_titles_admissible).
Defined.

End CNNExtra.

Module T5Extra.

Import T5 T5Init PyFacts T5Facts.

(** *** When [prepare_input] returns and what it raises *)

Ltac prepare_input_cases b training :=
  unfold prepare_input, pad_sequence;
  destruct (batch_input_ids b) as [|? ?];
  destruct (batch_attention_mask b) as [|? ?];
  destruct (batch_labels b) as [[|? ?]|];
  destruct training;
  destruct (batch_immediate_next_title b) as [?|];
  simpl.

Lemma prepare_input_returns_iff (pad_token_id : Z) (training : bool) (b : batch) :
  returns (prepare_input pad_token_id training b) <->
  batch_input_ids b <> [] /\ batch_attention_mask b <> [] /\
  batch_labels b <> Some [] /\
  (training = false -> is_Some (batch_immediate_next_title b)).
Proof.
  unfold returns. prepare_input_cases b training; split;
    try (intros [out H]; discriminate);
    try (intros (H1 & H2 & H3 & H4); try done;
         destruct (H4 eq_refl) as [? ?]; discriminate);
    try (intros _; eexists; reflexivity);
    intros _; repeat split; try done; eauto.
Qed.

Lemma prepare_input_empty_field (pad_token_id : Z) (training : bool) (b : batch) :
  batch_input_ids b = [] \/ batch_attention_mask b = [] \/ batch_labels b = Some [] ->
  prepare_input pad_token_id training b = Raise RuntimeError.
Proof.
  prepare_input_cases b training; intros [?|[?|?]]; done.
Qed.

Lemma prepare_input_missing_titles (pad_token_id : Z) (training : bool) (b : batch) :
  batch_input_ids b <> [] -> batch_attention_mask b <> [] ->
  batch_labels b <> Some [] ->
  training = false -> batch_immediate_next_title b = None ->
  prepare_input pad_token_id training b = Raise KeyError.
Proof. prepare_input_cases b training; done. Qed.

Lemma prepare_input_keeps_rows (pad_token_id : Z) (training : bool) (b : batch) out :
  prepare_input pad_token_id training b = Ok out ->
  length (input_ids out) = length (batch_input_ids b) /\
  length (attention_mask out) = length (batch_attention_mask b) /\
  next_titles out = if training then None else batch_immediate_next_title b.
Proof.
  prepare_input_cases b training; intros H; try discriminate;
    injection H as <-; simpl; rewrite ?length_fmap; done.
Qed.

(** X10.  [NTPT5.prepare_input] returns exactly when the input ids, the
    attention masks and the labels, if given, are non-empty lists and,
    outside training mode, the batch carries [immediate_next_title]; an
    empty field raises [RuntimeError], the missing titles [KeyError]; a
    returned batch has as many rows as the given one and carries the
    next titles outside training mode only. *)
Theorem prepare_input_outcomes (pad_token_id : Z) (training : bool) (b : batch) :
  (returns (prepare_input pad_token_id training b) <->
   batch_input_ids b <> [] /\ batch_attention_mask b <> [] /\
   batch_labels b <> Some [] /\
   (training = false -> is_Some (batch_immediate_next_title b))) /\
  (batch_input_ids b = [] \/ batch_attention_mask b = [] \/ batch_labels b = Some [] ->
   prepare_input pad_token_id training b = Raise RuntimeError) /\
  (batch_input_ids b <> [] -> batch_attention_mask b <> [] ->
   batch_labels b <> Some [] ->
   training = false -> batch_immediate_next_title b = None ->
   prepare_input pad_token_id training b = Raise KeyError) /\
  (forall out, prepare_input pad_token_id training b = Ok out ->
     length (input_ids out) = length (batch_input_ids b) /\
     length (attention_mask out) = length (batch_attention_mask b) /\
     next_titles out = if training then None else batch_immediate_next_title b).
Proof.
  split; [apply prepare_input_returns_iff|].
  split; [apply prepare_input_empty_field|].
  split; [apply prepare_input_missing_titles|].
  apply prepare_input_keeps_rows.
Qed.

(** *** The match count is a count of inputs *)

Lemma py_sum_cons (x : Z) (l : list Z) : py_sum (x :: l) = x + py_sum l.
Proof. unfold py_sum. simpl. rewrite py_sum_from. fold (py_sum l). lia. Qed.

Lemma py_sum_bits (l : list Z) :
  Forall (fun x => 0 <= x <= 1) l -> 0 <= py_sum l <= Z.of_nat (length l).
Proof.
  induction 1 as [|x l Hx _ IH]; [unfold py_sum; simpl; lia|].
  rewrite py_sum_cons, length_cons. lia.
Qed.

Lemma count_matches_bounds (mapped : list string) (k : Z) (target_text : list string) :
  0 <= count_matches mapped k target_text <= Z.of_nat (length target_text).
Proof.
  unfold count_matches.
  rewrite <- (length_imap (fun j truth =>
                 if in_block mapped k j truth then 1 else 0) target_text).
  apply py_sum_bits. apply Forall_forall. intros x Hx.
  apply list_elem_of_lookup in Hx as [j Hx].
  rewrite list_lookup_imap in Hx.
  destruct (target_text !! j) as [truth|]; [|discriminate].
  simpl in Hx. injection Hx as <-. destruct (in_block _ _ _ _); lia.
Qed.

(** X11.  The match count that [valid_step] returns lies between 0 and
    the number of inputs, whatever the number of returned sequences; it
    is 0 when that number is 0 and when nothing was generated. *)
Theorem match_count_bounds (all_unique_labels : list string) (k : Z)
    (sim : list (list Q)) (target_text : list string) (matches : Z) :
  valid_step_matches all_unique_labels k sim target_text = Ok matches ->
  0 <= matches <= Z.of_nat (length target_text) /\
  (k = 0 -> matches = 0) /\
  (sim = [] -> matches = 0).
Proof.
  unfold valid_step_matches. intros H.
  apply bind_Ok in H as (mapped & Hmapped & [= <-]).
  split; [apply count_matches_bounds|].
  assert (forall mapped' k', (forall j truth, in_block mapped' k' j truth = false) ->
            count_matches mapped' k' target_text = 0) as Hzero.
  { intros mapped' k' Hno. unfold count_matches.
    assert (imap (fun j truth => if in_block mapped' k' j truth then 1 else 0)
                 target_text = imap (fun _ _ => 0) target_text) as ->.
    { apply imap_ext. intros j truth _. simpl. rewrite Hno. reflexivity. }
    generalize target_text. intros l. induction l as [|x l IH]; [reflexivity|].
    rewrite imap_cons, py_sum_cons. exact IH. }
  split.
  - intros ->. apply Hzero. intros j truth. unfold in_block, py_slice.
    rewrite !Z.mul_0_r. simpl.
    apply bool_decide_eq_false_2. rewrite Z.sub_diag. simpl. rewrite take_0.
    intros Hin. inversion Hin.
  - intros ->. simpl in Hmapped. injection Hmapped as <-.
    apply Hzero. intros j truth. unfold in_block, py_slice. simpl.
    rewrite drop_nil, take_nil. apply bool_decide_eq_false_2.
    intros Hin. inversion Hin.
Qed.

Lemma match_count_bounds_witness :
  valid_step_matches synthetic_labels 3 synthetic_sim synthetic_truth = Ok 2 /\
  0 <= 2 <= 5.
Proof.
  split; [reflexivity|].
  exact (proj1 (match_count_bounds synthetic_labels 3 synthetic_sim
                  synthetic_truth 2 eq_refl)).
Defined.

(** *** The match count on either container of the labels *)




(** *** Where [from_dict] takes the tasks and the labels from *)

(** X12.  [from_dict] takes the tasks from the keyword arguments before
    the dictionary: without training tasks in either it raises
    [KeyError]; with both kinds of task among the keyword arguments it
    returns them whatever the dictionary holds; without any test task it
    falls back on [DirectNTP()]; and task objects in the dictionary, in
    place of (class, parameters) pairs, raise [TypeError]. *)
Theorem from_dict_sources {Task Params Prim : Type}
    (from_eval : string -> Params -> result Task) (DirectNTP : Task)
    (d : @config_dict Task Params Prim) (kwargs : @from_dict_kwargs Task) :
  (kw_training_tasks kwargs = None -> d_training_tasks d = None ->
   from_dict from_eval DirectNTP d kwargs = Raise KeyError) /\
  (forall ts t, kw_training_tasks kwargs = Some ts -> kw_test_task kwargs = Some t ->
     exists config,
       from_dict from_eval DirectNTP d kwargs = Ok config /\
       training_tasks config = ts /\ test_task config = t /\
       all_unique_labels config
       = default (default (NdArray []) (d_all_unique_labels d))
                 (kw_all_unique_labels kwargs)) /\
  (forall ts, kw_training_tasks kwargs = Some ts -> kw_test_task kwargs = None ->
     d_test_task d = None ->
     exists config,
       from_dict from_eval DirectNTP d kwargs = Ok config /\
       training_tasks config = ts /\ test_task config = DirectNTP) /\
  (forall t rest, kw_training_tasks kwargs = None ->
     d_training_tasks d = Some (TaskObj t :: rest) ->
     from_dict from_eval DirectNTP d kwargs = Raise TypeError).
Proof.
  unfold from_dict. split; [|split; [|split]].
  - intros -> ->. reflexivity.
  - intros ts t -> ->. simpl. eexists. split; [reflexivity|]. simpl.
    destruct (kw_all_unique_labels kwargs), (d_all_unique_labels d); done.
  - intros ts -> -> ->. simpl. eexists. split; [reflexivity|]. done.
  - intros t rest -> ->. reflexivity.
Qed.

(** *** The dictionary form is stable *)

Lemma eval_tasks_inverse {Task Params : Type}
    (to_json : Task -> string * Params)
    (from_eval : string -> Params -> result Task) (tasks : list Task) :
  (forall t, from_eval (to_json t).1 (to_json t).2 = Ok t) ->
  eval_tasks from_eval (task_to_json to_json <$> tasks) = Ok tasks.
Proof.
  intros Hrt.
  destruct (eval_tasks_to_json to_json from_eval eq tasks) as (tasks' & -> & Hall).
  { intros t. exists t. split; [apply Hrt | reflexivity]. }
  f_equal. symmetry. clear -Hall.
  induction Hall as [|? ? ? ? -> _ IH]; [reflexivity | f_equal; exact IH].
Qed.

(** X13.  When [Task.from_eval] inverts [Task.to_json], the dictionary
    form is stable: [to_dict] of the configuration reloaded from
    [to_dict] is the same dictionary, while the reloaded configuration
    itself is the original one only if its labels were a plain list
    already. *)
Theorem to_dict_is_stable {Task Params Prim : Type}
    (to_json : Task -> string * Params)
    (from_eval : string -> Params -> result Task)
    (DirectNTP : Task) (config : @NTPT5Config Task Prim) :
  (forall t, from_eval (to_json t).1 (to_json t).2 = Ok t) ->
  exists config',
    from_dict from_eval DirectNTP (to_dict to_json config) no_kwargs = Ok config' /\
    to_dict to_json config' = to_dict to_json config /\
    (config' = config <->
     all_unique_labels config = PyList (label_items (all_unique_labels config))).
Proof.
  intros Hrt. unfold from_dict, to_dict. simpl.
  rewrite (eval_tasks_inverse to_json from_eval _ Hrt). simpl.
  unfold task_to_json. simpl. rewrite Hrt. simpl.
  eexists. split; [reflexivity|]. unfold NTPT5Config_init. simpl.
  split; [reflexivity|].
  destruct config as [tasks test lbls dev fields]. simpl. split.
  - intros [= <-]. reflexivity.
  - intros <-. reflexivity.
Qed.

Lemma TaskClass_inverse (t : TaskClass) :
  TaskClass_from_eval (TaskClass_to_json t).1 (TaskClass_to_json t).2 = Ok t.
Proof. destruct t; reflexivity. Defined.

Lemma to_dict_is_stable_witness :
  exists config',
    from_dict TaskClass_from_eval DirectNTP
      (to_dict TaskClass_to_json example_config) no_kwargs = Ok config' /\
    to_dict TaskClass_to_json config' = to_dict TaskClass_to_json example_config /\
    config' <> example_config.
Proof.
  destruct (to_dict_is_stable TaskClass_to_json TaskClass_from_eval DirectNTP
              example_config TaskClass_inverse) as (config' & Hfrom & Hstable & Hsame).
  exists config'. split; [exact Hfrom|]. split; [exact Hstable|].
  intros Heq. apply Hsame in Heq. discriminate.
Defined.

(** *** Tokenization without training tasks, and after [set_test_task] *)

(** X14.  A configuration built without training tasks holds the empty
    list: in training mode [tokenize] raises [IndexError], from
    [random.choice], while outside training mode the test task, by
    default [DirectNTP()], is selected. *)
Theorem tokenize_without_training_tasks {Task Prim Rng Mapper Encoding : Type}
    (DirectNTP : Task)
    (randbelow : Rng -> nat -> nat * Rng)
    (render : Task -> list string -> string -> option Mapper -> list string
              -> result (string * string))
    (tokenizer : string -> string -> Encoding)
    (test_task : option Task) (labels : option labels_value)
    (device : option string) (kwargs : gmap string Prim)
    (mapper : option Mapper) (s : sample) (g : Rng) :
  let config := NTPT5Config_init DirectNTP None test_task labels device kwargs in
  tokenize randbelow render tokenizer
    {| config := config; training := true; cluster_label_mapper := mapper |} s g
  = Raise IndexError /\
  select_task randbelow
    {| config := config; training := false; cluster_label_mapper := mapper |} g
  = Ok (default DirectNTP test_task, g).
Proof. split; reflexivity. Qed.

(** X15.  After [set_test_task], [tokenize] outside training mode
    renders the task just set; in training mode it is unaffected; and a
    second [set_test_task] overrides the first. *)
Theorem set_test_task_is_used {Task Prim Rng Mapper Encoding : Type}
    (randbelow : Rng -> nat -> nat * Rng)
    (render : Task -> list string -> string -> option Mapper -> list string
              -> result (string * string))
    (tokenizer : string -> string -> Encoding)
    (self : @NTPT5 Task Prim Mapper) (t t' : Task) (s : sample) (g : Rng) :
  (training self = false ->
   tokenize randbelow render tokenizer (set_test_task self t) s g
   = (render t (input_title_sequence s) (immediate_next_title s)
             (cluster_label_mapper self) (input_keywords_sequence s)
      ≫= fun '(input_text, target_text) =>
           Ok (tokenizer input_text target_text, immediate_next_title s, g))) /\
  (training self = true ->
   tokenize randbelow render tokenizer (set_test_task self t) s g
   = tokenize randbelow render tokenizer self s g) /\
  set_test_task (set_test_task self t) t' = set_test_task self t'.
Proof.
  split; [|split].
  - intros Heval. unfold tokenize, select_task. simpl. rewrite Heval. reflexivity.
  - intros Htrain. unfold tokenize, select_task. simpl. rewrite Htrain. reflexivity.
  - reflexivity.
Qed.

(** *** The generation defaults *)

Lemma pop_and_set_lookup {V : Type} (key key' : string) (dflt : V) (d : gmap string V) :
  pop_and_set key dflt d !! key'
  = if decide (key = key') then Some (default dflt (d !! key)) else d !! key'.
Proof.
  unfold pop_and_set, dict_pop. case_decide as H.
  - subst. apply lookup_insert_eq.
  - rewrite lookup_insert_ne, lookup_delete_ne by exact H. reflexivity.
Qed.

(** X16.  After lines 91-98 of [NTPT5.__init__], the keyword arguments
    hold no [return_unused_kwargs]; each of the five generation
    parameters holds the caller's value if there was one and its default
    (5, 50, 30, 0, True) otherwise; every other key is as the caller
    gave it. *)
Theorem generation_kwargs_defaults (d : gmap string kwarg) (key : string) :
  generation_kwargs d !! key
  = if String.eqb key "return_unused_kwargs" then None
    else match generation_default key with
         | Some dflt => Some (default dflt (d !! key))
         | None => d !! key
         end.
Proof.
  unfold generation_kwargs, generation_default. rewrite !pop_and_set_lookup.
  unfold dict_pop. simpl.
  repeat (case_decide as H;
          [subst key; simpl; rewrite ?lookup_delete_ne by done; reflexivity|];
          apply not_eq_sym, String.eqb_neq in H; rewrite H; clear H).
  destruct (String.eqb_spec key "return_unused_kwargs") as [->|Hne].
  - apply lookup_delete_eq.
  - apply lookup_delete_ne. congruence.
Qed.

End T5Extra.

Module SentEncExtra.

Import SentEnc PyFacts SentEncFacts.

(** *** The sizes of the chunks *)

(** X17.  For a positive batch size, [__call__] encodes
    [ceil(n / batch_size)] chunks: all of them but the last hold exactly
    [batch_size] sentences, the last one the remaining ones. *)
Theorem dataset_iter_chunk_sizes (batch_size : nat) (sentences : list string) :
  (0 < batch_size)%nat ->
  let n := length sentences in
  let m := length (dataset_iter batch_size sentences) in
  ((m - 1) * batch_size < n \/ n = 0)%nat /\ (n <= m * batch_size)%nat /\
  forall i chunk, dataset_iter batch_size sentences !! i = Some chunk ->
    length chunk = (if bool_decide (S i < m)%nat then batch_size
                    else n - i * batch_size)%nat.
Proof.
  intros Hpos n m.
  assert (m = n_batches n batch_size) as Hm
    by (unfold m, dataset_iter; rewrite length_fmap, length_seq; reflexivity).
  pose proof (n_batches_covers n batch_size Hpos) as Hcover.
  split; [|split].
  - destruct (decide (n = 0)%nat) as [?|Hn]; [right; assumption|left].
    rewrite Hm. apply n_batches_tight; lia.
  - rewrite Hm. exact Hcover.
  - intros i chunk Hchunk. unfold dataset_iter in Hchunk.
    rewrite list_lookup_fmap in Hchunk.
    destruct (seq 0 _ !! i) as [k|] eqn:Hk; [|discriminate].
    apply lookup_seq in Hk as [-> Hk]. simpl in Hk, Hchunk.
    injection Hchunk as <-. rewrite length_take, length_drop. fold n.
    fold n in Hk. rewrite <- Hm in Hk.
    assert (0 < n)%nat as Hn.
    { destruct (decide (n = 0)%nat) as [Hz|?]; [|lia].
      rewrite Hm, Hz in Hk. unfold n_batches in Hk.
      rewrite Nat.div_small in Hk by lia. lia. }
    pose proof (n_batches_tight n batch_size Hpos Hn) as Htight.
    rewrite <- Hm in Htight.
    case_bool_decide; nia.
Qed.

Lemma dataset_iter_chunk_sizes_witness :
  (5 <= 3 * 2)%nat /\
  length <$> dataset_iter 2 ["a"; "b"; "c"; "d"; "e"]%string = [2; 2; 1]%nat /\
  length ["e"%string] = (5 - 2 * 2)%nat.
Proof.
  destruct (dataset_iter_chunk_sizes 2 ["a"; "b"; "c"; "d"; "e"]%string
              ltac:(lia)) as (_ & Hcover & Hsizes).
  split; [exact Hcover|]. split; [reflexivity|].
  exact (Hsizes 2%nat ["e"%string] eq_refl).
Defined.

(** *** When [__call__] returns *)

Lemma encode_chunks_length {Row : Type}
    (encode_batch : list string -> result (encoded Row))
    (chunks : list (list string)) (outputs : list (encoded Row)) :
  encode_chunks encode_batch chunks = Ok outputs ->
  Forall2 (fun chunk encoded_batch => encode_batch chunk = Ok encoded_batch)
          chunks outputs.
Proof.
  revert outputs. induction chunks as [|chunk chunks IH]; intros outputs H.
  - injection H as <-. constructor.
  - simpl in H. apply bind_Ok in H as (e & He & H).
    apply bind_Ok in H as (rest & Hrest & [= <-]).
    constructor; [exact He | apply IH; exact Hrest].
Qed.

Lemma encode_chunks_numpy {Row : Type} (model_encode : list string -> list Row)
    (chunks : list (list string)) :
  encode_chunks (SentenceTransformerEncoder_encode_batch model_encode) chunks
  = Ok ((fun chunk => NumpyArray (model_encode chunk)) <$> chunks).
Proof.
  induction chunks as [|chunk chunks IH]; [reflexivity|].
  simpl. rewrite IH. reflexivity.
Qed.

(** X18.  [SentenceEncoder.__call__] raises [ZeroDivisionError] for a
    batch size of zero.  For a positive one it raises what the first
    failing [encode_batch] raises; when every chunk is encoded it raises
    [TypeError] if one of the results is not a tensor, [RuntimeError] if
    there is no sentence, and returns the stacked results otherwise.
    With [SentenceTransformerEncoder.encode_batch], whose results are
    NumPy arrays, it raises [TypeError] on every non-empty input.  And
    whenever [encode_batch] gives one row per sentence of its chunk, the
    result has one row per input sentence. *)
Theorem call_outcomes {Row : Type}
    (encode_batch : list string -> result (encoded Row))
    (batch_size : nat) (sentences : list string) :
  (batch_size = 0%nat ->
   call encode_batch batch_size sentences = Raise ZeroDivisionError) /\
  ((0 < batch_size)%nat ->
   (forall e, encode_chunks encode_batch (dataset_iter batch_size sentences) = Raise e ->
      call encode_batch batch_size sentences = Raise e) /\
   (forall outputs,
      encode_chunks encode_batch (dataset_iter batch_size sentences) = Ok outputs ->
      call encode_batch batch_size sentences
      = if forallb is_tensor outputs
        then if bool_decide (sentences = []) then Raise RuntimeError
             else Ok (concat (rows_of <$> outputs))
        else Raise TypeError) /\
   (forall model_encode : list string -> list Row,
      sentences <> [] ->
      call (SentenceTransformerEncoder_encode_batch model_encode) batch_size sentences
      = Raise TypeError) /\
   ((forall batch_sentences encoded_batch,
       encode_batch batch_sentences = Ok encoded_batch ->
       length (rows_of encoded_batch) = length batch_sentences) ->
    forall output, call encode_batch batch_size sentences = Ok output ->
      length output = length sentences)).
Proof.
  split; [intros ->; reflexivity|].
  intros Hpos.
  assert (forall encode_batch' : list string -> result (encoded Row),
            call encode_batch' batch_size sentences
            = outputs ← encode_chunks encode_batch' (dataset_iter batch_size sentences);
              torch_vstack outputs) as Hunfold.
  { intros encode_batch'. unfold call.
    destruct (Nat.eqb_spec batch_size 0) as [?|_]; [lia | reflexivity]. }
  assert (forall outputs,
            encode_chunks encode_batch (dataset_iter batch_size sentences) = Ok outputs ->
            (outputs = [] <-> sentences = [])) as Hempty.
  { intros outputs Hout. apply encode_chunks_length in Hout.
    apply Forall2_length in Hout. split.
    - intros ->. destruct sentences as [|s rest]; [reflexivity|].
      exfalso. apply (dataset_iter_nonempty batch_size (s :: rest) Hpos); [discriminate|].
      destruct (dataset_iter batch_size (s :: rest)); [reflexivity|discriminate].
    - intros ->. rewrite dataset_iter_nil in Hout by exact Hpos.
      destruct outputs; [reflexivity|discriminate]. }
  assert (forall outputs,
            encode_chunks encode_batch (dataset_iter batch_size sentences) = Ok outputs ->
            call encode_batch batch_size sentences
            = if forallb is_tensor outputs
              then if bool_decide (sentences = []) then Raise RuntimeError
                   else Ok (concat (rows_of <$> outputs))
              else Raise TypeError) as Hcall.
  { intros outputs Hout. rewrite Hunfold, Hout. simpl. unfold torch_vstack.
    destruct (forallb is_tensor outputs) eqn:Hall; [|reflexivity].
    pose proof (Hempty outputs Hout) as Hiff.
    case_bool_decide as Hs.
    - rewrite (proj2 Hiff Hs). reflexivity.
    - destruct outputs; [|reflexivity]. exfalso. apply Hs, Hiff. reflexivity. }
  split; [|split; [exact Hcall|split]].
  - intros e He. rewrite Hunfold, He. reflexivity.
  - intros model_encode Hne. rewrite Hunfold, encode_chunks_numpy. simpl.
    unfold torch_vstack.
    destruct (dataset_iter batch_size sentences) as [|chunk chunks] eqn:Hiter.
    + exfalso. exact (dataset_iter_nonempty batch_size sentences Hpos Hne Hiter).
    + reflexivity.
  - intros Hlen output Hout.
    destruct (encode_chunks encode_batch (dataset_iter batch_size sentences))
      as [outputs|e] eqn:Hchunks.
    + rewrite (Hcall outputs eq_refl) in Hout.
      destruct (forallb is_tensor outputs); [|discriminate].
      case_bool_decide; [discriminate|]. injection Hout as <-.
      apply encode_chunks_length in Hchunks.
      rewrite <- (dataset_iter_concat batch_size sentences Hpos).
      clear -Hchunks Hlen.
      induction Hchunks as [|chunk e chunks outputs He _ IH]; [reflexivity|].
      rewrite fmap_cons. simpl. rewrite !length_app.
      rewrite (Hlen chunk e He). f_equal. apply IH.
    + rewrite Hunfold, Hchunks in Hout. discriminate.
Qed.

Lemma call_outcomes_witness :
  call (SentenceTransformerEncoder_encode_batch (fun l => String.length <$> l))
       2 ["a"; "bcd"; "ef"]%string = Raise TypeError /\
  call length_encoder 2 ["a"; "bcd"; "ef"]%string = Ok [1; 3; 2]%nat.
Proof.
  split.
  - apply (call_outcomes length_encoder 2 ["a"; "bcd"; "ef"]%string);
      [lia | discriminate].
  - etrans; [apply (call_outcomes length_encoder 2 ["a"; "bcd"; "ef"]%string);
               [lia | reflexivity] | reflexivity].
Defined.

End SentEncExtra.

Module BertFacts.

Import Bert PyFacts.

(** *** Which hidden states are fused *)

(** X19.  [hidden_states[-hidden_states_num:]] selects the last
    [hidden_states_num] hidden states when that number is positive and
    at most their count, all of them when it is larger, and also all of
    them, not none, when it is 0; a negative number drops that many
    leading ones. *)
Theorem last_hidden_states_selection {T : Type} (hidden_states : list T) (n : Z) :
  (0 < n <= Z.of_nat (length hidden_states) ->
   last_hidden_states hidden_states n
   = drop (length hidden_states - Z.to_nat n) hidden_states /\
   length (last_hidden_states hidden_states n) = Z.to_nat n) /\
  (Z.of_nat (length hidden_states) <= n ->
   last_hidden_states hidden_states n = hidden_states) /\
  (n = 0 -> last_hidden_states hidden_states n = hidden_states) /\
  (n < 0 -> last_hidden_states hidden_states n = drop (Z.to_nat (- n)) hidden_states).
Proof.
  unfold last_hidden_states, T5.py_slice, T5.clamp_bound.
  set (len := length hidden_states).
  destruct (Z.ltb_spec (Z.of_nat len) 0) as [?|_]; [lia|].
  rewrite (Z.min_id (Z.of_nat len)).
  split; [|split; [|split]].
  - intros Hn. destruct (Z.ltb_spec (- n) 0) as [_|?]; [|lia].
    rewrite Z.max_r by lia.
    replace (Z.to_nat (- n + Z.of_nat len)) with (len - Z.to_nat n)%nat by lia.
    rewrite take_ge by (rewrite length_drop; fold len; lia).
    split; [reflexivity|]. rewrite length_drop. fold len. lia.
  - intros Hn. destruct (Z.ltb_spec (- n) 0) as [_|?].
    + rewrite Z.max_l by lia. rewrite Z.sub_0_r, Nat2Z.id.
      change (Z.to_nat 0) with 0%nat. rewrite drop_0.
      apply take_ge. fold len. lia.
    + assert (n = 0) as -> by lia. assert (len = 0%nat) as Hz by lia.
      destruct hidden_states; [reflexivity | simpl in len; lia].
  - intros ->. change (- 0) with 0. change (0 <? 0) with false. cbv iota.
    rewrite Z.min_l by lia. rewrite Z.sub_0_r, Nat2Z.id.
    change (Z.to_nat 0) with 0%nat. rewrite drop_0. apply take_ge. fold len. lia.
  - intros Hn. destruct (Z.ltb_spec (- n) 0) as [?|_]; [lia|].
    destruct (Z.min_spec (- n) (Z.of_nat len)) as [[Hlt ->]|[Hge ->]].
    + apply take_ge. rewrite length_drop. fold len. lia.
    + rewrite Nat2Z.id, Z.sub_diag. change (Z.to_nat 0) with 0%nat. rewrite take_0.
      rewrite drop_ge by (fold len; lia). reflexivity.
Qed.

(** *** The shape of an encoded batch *)

Section Shapes.

Context {A Tokens : Type}.
Variable add : A -> A -> A.
Variable zero : A.
Variable div_count : A -> nat -> A.
Variable latent_dim : nat.
Variable tokenizer : list string -> Tokens.
Variable model_hidden_states : Tokens -> list (list (list (list A))).

Lemma sum_tokens_length (tokens : list (list A)) :
  Forall (fun v => length v = latent_dim) tokens ->
  length (sum_tokens add zero latent_dim tokens) = latent_dim.
Proof.
  unfold sum_tokens.
  assert (length (replicate latent_dim zero) = latent_dim) as Hacc
    by apply length_replicate.
  revert Hacc. generalize (replicate latent_dim zero).
  induction tokens as [|v tokens IH]; intros acc Hacc Hall; [exact Hacc|].
  inversion Hall as [|? ? Hv Hrest]; subst. simpl. apply IH; [|exact Hrest].
  rewrite length_zip_with. lia.
Qed.

Lemma mean_tokens_length (tokens : list (list A)) :
  Forall (fun v => length v = latent_dim) tokens ->
  length (mean_tokens add zero div_count latent_dim tokens) = latent_dim.
Proof.
  intros H. unfold mean_tokens. rewrite length_fmap. apply sum_tokens_length, H.
Qed.

Lemma fused_tokens_shape (strat : token_fusion) (batch : nat)
    (hidden_states : list (list (list (list A)))) :
  Forall (well_shaped latent_dim batch) hidden_states ->
  Forall (matrix_shape batch latent_dim)
    (match strat with
     | TokenSum => _fuse_token_sum add zero latent_dim hidden_states
     | TokenMean => _fuse_token_mean add zero div_count latent_dim hidden_states
     end).
Proof.
  intros Hall. destruct strat; unfold _fuse_token_sum, _fuse_token_mean;
    apply Forall_fmap; (eapply Forall_impl; [exact Hall|]);
    intros h [Hlen Hrows]; simpl; (split; [rewrite length_fmap; exact Hlen|]);
    apply Forall_fmap; (eapply Forall_impl; [exact Hrows|]);
    intros tokens Htok; simpl;
    [apply sum_tokens_length | apply mean_tokens_length]; exact Htok.
Qed.

Lemma zip_with_shape {B : Type} (f : list B -> list B -> list B)
    (batch w1 w2 w : nat) (m1 m2 : list (list B)) :
  (forall r1 r2, length r1 = w1 -> length r2 = w2 -> length (f r1 r2) = w) ->
  length m1 = batch -> Forall (fun row => length row = w1) m1 ->
  length m2 = batch -> Forall (fun row => length row = w2) m2 ->
  length (zip_with f m1 m2) = batch /\
  Forall (fun row => length row = w) (zip_with f m1 m2).
Proof.
  intros Hf Hl1 Hw1 Hl2 Hw2. split; [rewrite length_zip_with; lia|].
  clear Hl1 Hl2. revert m2 Hw2.
  induction Hw1 as [|r1 m1 Hr1 _ IH]; intros m2 Hw2; [constructor|].
  destruct Hw2 as [|r2 m2 Hr2 Hw2]; simpl; constructor; auto.
Qed.

Lemma concat_shape (batch : nat) (rest : list (list (list A)))
    (first : list (list A)) (w : nat) :
  matrix_shape batch w first ->
  Forall (matrix_shape batch latent_dim) rest ->
  matrix_shape batch (w + latent_dim * length rest)
               (foldl (zip_with app) first rest).
Proof.
  revert first w. induction rest as [|m rest IH]; intros first w Hfirst Hrest.
  - simpl. rewrite Nat.mul_0_r, Nat.add_0_r. exact Hfirst.
  - apply Forall_cons in Hrest as [[Hml Hmw] Hrest']. destruct Hfirst as [Hfl Hfw].
    simpl foldl. rewrite length_cons.
    replace (w + latent_dim * S (length rest))%nat
      with ((w + latent_dim) + latent_dim * length rest)%nat by lia.
    apply IH; [|exact Hrest'].
    apply (zip_with_shape app batch w latent_dim); auto.
    intros r1 r2 H1 H2. rewrite length_app. lia.
Qed.

Lemma sum_shape (batch : nat) (rest : list (list (list A))) (first : list (list A)) :
  matrix_shape batch latent_dim first ->
  Forall (matrix_shape batch latent_dim) rest ->
  matrix_shape batch latent_dim (foldl (zip_with (zip_with add)) first rest).
Proof.
  revert first. induction rest as [|m rest IH]; intros first Hfirst Hrest;
    [exact Hfirst|].
  apply Forall_cons in Hrest as [[Hml Hmw] Hrest']. destruct Hfirst as [Hfl Hfw].
  simpl foldl. apply IH; [|exact Hrest'].
  apply (zip_with_shape (zip_with add) batch latent_dim latent_dim); auto.
  intros r1 r2 H1 H2. rewrite length_zip_with. lia.
Qed.

Lemma matrix_width (batch w : nat) (m : list (list A)) :
  matrix_shape batch w m -> CNN.width m = if decide (batch = 0%nat) then 0%nat else w.
Proof.
  intros [Hlen Hrows]. destruct m as [|r m]; simpl in *.
  - subst. reflexivity.
  - subst. simpl. inversion Hrows; assumption.
Qed.

(** X20.  [BertSentenceEncoder.encode_batch] raises [RuntimeError] when
    no hidden state is selected; when the selected hidden states hold
    one element per sentence with token vectors of the latent dimension,
    it returns one row per sentence, of the latent dimension under the
    sum fusion and of the latent dimension times the number of selected
    hidden states under the concatenation, with either token fusion. *)
Theorem encode_batch_shape (hidden_strat : hidden_fusion) (token_strat : token_fusion)
    (hidden_states_num : Z) (batch_sentences : list string) :
  let selected :=
    last_hidden_states (model_hidden_states (tokenizer batch_sentences))
                       hidden_states_num in
  (selected = [] ->
   encode_batch add zero div_count latent_dim tokenizer model_hidden_states
     hidden_strat token_strat hidden_states_num batch_sentences
   = Raise RuntimeError) /\
  (selected <> [] ->
   Forall (well_shaped latent_dim (length batch_sentences)) selected ->
   exists output,
     encode_batch add zero div_count latent_dim tokenizer model_hidden_states
       hidden_strat token_strat hidden_states_num batch_sentences
     = Ok output /\
     length output = length batch_sentences /\
     Forall (fun row => length row
               = match hidden_strat with
                 | HiddenSum => latent_dim
                 | HiddenConcat => (latent_dim * length selected)%nat
                 end) output).
Proof.
  intros selected. unfold encode_batch. fold selected. split.
  - intros ->. destruct hidden_strat, token_strat; reflexivity.
  - intros Hne Hshape.
    pose proof (fused_tokens_shape token_strat _ _ Hshape) as Hfused.
    assert (length (match token_strat with
                    | TokenSum => _fuse_token_sum add zero latent_dim selected
                    | TokenMean => _fuse_token_mean add zero div_count latent_dim selected
                    end) = length selected) as Hcount.
    { destruct token_strat; unfold _fuse_token_sum, _fuse_token_mean;
        apply length_fmap. }
    destruct (match token_strat with
              | TokenSum => _ | TokenMean => _ end) as [|first rest];
      [destruct selected; [done | discriminate]|].
    inversion Hfused as [|? ? Hfirst Hrest]; subst.
    assert (forallb (fun t => bool_decide (length t = length first)) rest = true)
      as Hsame.
    { apply forallb_forall. intros t Ht. apply bool_decide_eq_true_2.
      rewrite Forall_forall in Hrest. apply list_elem_of_In in Ht.
      destruct (Hrest t Ht) as [-> _]. destruct Hfirst as [-> _]. reflexivity. }
    assert (forallb (fun t => bool_decide (length t = length first
                                           /\ CNN.width t = CNN.width first)) rest
            = true) as Hsame'.
    { apply forallb_forall. intros t Ht. apply bool_decide_eq_true_2.
      rewrite Forall_forall in Hrest. apply list_elem_of_In in Ht.
      rewrite (matrix_width _ _ _ (Hrest t Ht)), (matrix_width _ _ _ Hfirst).
      destruct (Hrest t Ht) as [-> _]. destruct Hfirst as [-> _]. done. }
    destruct hidden_strat.
    + unfold _fuse_hidden_states_sum. rewrite Hsame'.
      destruct (sum_shape _ rest first Hfirst Hrest) as [Hl Hw]. eauto.
    + unfold _fuse_hidden_states_concat. rewrite Hsame.
      destruct (concat_shape _ rest first latent_dim Hfirst Hrest) as [Hl Hw].
      eexists. split; [reflexivity|]. split; [exact Hl|].
      eapply Forall_impl; [exact Hw|]. intros row ->. simpl.
      rewrite <- Hcount. simpl. lia.
Qed.

End Shapes.

(** X21.  The strategy names given to [BertSentenceEncoder.__init__]
    are accepted exactly when the hidden-state fusion is "sum" or
    "concat" and the token fusion "sum" or "mean"; any other name raises
    [KeyError]. *)
Theorem init_strategies_outcomes (hidden_strat token_strat : string) :
  (returns (init_strategies hidden_strat token_strat) <->
   (hidden_strat = "sum" \/ hidden_strat = "concat")%string /\
   (token_strat = "sum" \/ token_strat = "mean")%string) /\
  (forall e, init_strategies hidden_strat token_strat = Raise e -> e = KeyError).
Proof.
  unfold init_strategies, dict_get, hidden_states_available_fusions,
    token_available_fusions.
  rewrite !lookup_insert. rewrite !lookup_empty.
  repeat case_decide; subst; simpl; (split; [split|]);
    try (intros [? ?]; discriminate);
    try (intros _; split; auto; fail);
    try (intros _; eexists; reflexivity);
    try (intros e [= <-]; reflexivity);
    try (intros e; discriminate);
    try (intros [[?|?] [?|?]]; congruence).
Qed.

Lemma encode_batch_shape_witness :
  encode_batch Z.add 0 (fun x n => x `div` Z.of_nat n) 2 (fun s => s)
    toy_hidden_states HiddenConcat TokenSum 2 ["x"; "y"]%string
  = Ok [[22; 4; 32; 4]; [22; 4; 32; 4]] /\
  encode_batch Z.add 0 (fun x n => x `div` Z.of_nat n) 2 (fun s => s)
    toy_hidden_states HiddenSum TokenSum 0 ["x"; "y"]%string
  = Ok [[66; 12]; [66; 12]].
Proof.
  destruct (encode_batch_shape Z.add 0 (fun x n => x `div` Z.of_nat n) 2
              (fun s => s) toy_hidden_states HiddenConcat TokenSum 2
              ["x"; "y"]%string) as [_ Hconcat].
  destruct Hconcat as (output & Hout & _ & _);
    [discriminate | repeat constructor |].
  split; [|reflexivity].
  rewrite Hout. f_equal.
  vm_compute in Hout. injection Hout as <-. reflexivity.
Defined.

(** *** The rows of a sentence depend on its chunk *)

(** [BertSentenceEncoder.encode_batch] fuses the tokens of a sentence
    over every position of the padded chunk: on the stand-in tokenizer
    and model, the row of the sentence ["a"] is not the same when it is
    encoded alone and when it is encoded together with ["bcd"], and so
    the matrix that [SentenceEncoder.__call__] returns is not the same
    at batch sizes 1 and 2. *)
Lemma bert_rows_depend_on_the_chunk :
  SentEnc.call toy_bert 1 ["a"; "bcd"]%string = Ok [[2]; [6]] /\
  SentEnc.call toy_bert 2 ["a"; "bcd"]%string = Ok [[4]; [6]].
Proof. split; vm_compute; reflexivity. Qed.

End BertFacts.
